(** * polyhedra-viewer: the operation engine, the Composite formes and the
      legacy augmentation, embedded from the TypeScript / JavaScript sources.

    Layout: the embedding comes first (one module per source file), the
    concrete solids and graphs used as examples next, the theorems last. *)

From Stdlib Require Import ZArith Bool Lia.
From Stdlib Require Import Floats.PrimFloat.
From stdpp Require Import base option list gmap strings.

Set Default Proof Using "Type".

(* ===================================================================== *)
(** ** JavaScript values, exceptions and the lodash helpers the code uses *)
(* ===================================================================== *)

Module Js.

(** The two sides of an operation pair ([type Side = "left" | "right"]). *)
Inductive Side := SLeft | SRight.

(** What a [throw new Error(...)] of the sources carries: one constructor
    per message template, with the interpolated values, plus the
    [TypeError] the runtime raises on a property access on [undefined]. *)
Inductive error :=
| CountTooHigh (count : Z)
| CountTooLow (count : Z)
| InvalidCompositeSpecs (name : string)
| CouldNotFindEntry (side : Side) (name : string)
| NoMatchingGraphEntry (name : string)
| ExpectedSingle (len : nat)
| TypeError
| External (msg : string).

(** A computation that returns or throws. *)
Inductive result (A : Type) :=
| Ok (a : A)
| Throw (e : error).
Arguments Ok {A} a.
Arguments Throw {A} e.

Definition bind {A B} (m : result A) (k : A -> result B) : result B :=
  match m with
  | Ok a => k a
  | Throw e => Throw e
  end.

Definition throws {A} (m : result A) : Prop := exists e, m = Throw e.

(** Primitive values stored in option objects. *)
Inductive value :=
| VUndefined
| VNull
| VBool (b : bool)
| VNum (n : Z)
| VStr (s : string).

#[global] Instance value_eq_dec : EqDecision value.
Proof. solve_decision. Defined.

(** JavaScript truthiness, on these values. *)
Definition truthy (v : value) : bool :=
  match v with
  | VUndefined | VNull => false
  | VBool b => b
  | VNum n => negb (n =? 0)%Z
  | VStr s => negb (String.eqb s "")
  end.

(** A plain object with primitive fields. *)
Abbreviation object := (gmap string value).

(** lodash [isMatch(object, source)]: every own field of [source] is a
    field of [object] with the same value (a field of [source] holding
    [undefined] has to be present in [object] too). *)
Definition isMatch (obj src : object) : bool :=
  bool_decide (map_Forall (fun k v => obj !! k = Some v) src).

(** lodash [pickBy(object)] with the default predicate: the truthy fields. *)
Definition pickBy (obj : object) : object :=
  filter (fun kv => truthy kv.2 = true) obj.

(** [Array.prototype.every] over a callback that may throw: stops at the
    first element the callback rejects. *)
Fixpoint every {A} (p : A -> result bool) (l : list A) : result bool :=
  match l with
  | [] => Ok true
  | a :: l' => bind (p a) (fun b => if b then every p l' else Ok false)
  end.

(** [utils.getSingle]: the only element of a one-element array. *)
Definition getSingle {A} (l : list A) : result A :=
  match l with
  | [a] => Ok a
  | _ => Throw (ExpectedSingle (length l))
  end.

End Js.

Export Js.

Declare Scope js_scope.
Delimit Scope js_scope with js.
Notation "'let*' x ':=' m 'in' k" := (bind m (fun x => k))
  (at level 10, x name, m at level 100, k at level 200) : js_scope.
Open Scope js_scope.

(* ===================================================================== *)
(** ** math/operations/cutPasteOps/cutPasteUtils.ts *)
(* ===================================================================== *)

Module CutPasteUtils.

(** [type Count = Composite["data"]["augmented"]], the literal type
    [0 | 1 | 2 | 3]; at run time a number. *)
Definition Count := Z.

Definition isCount (c : Count) : Prop := (0 <= c <= 3)%Z.

Definition inc (count : Count) : result Count :=
  if (count =? 3)%Z then Throw (CountTooHigh count) else Ok (count + 1)%Z.

Definition dec (count : Count) : result Count :=
  if (count =? 0)%Z then Throw (CountTooLow count) else Ok (count - 1)%Z.

End CutPasteUtils.

(* ===================================================================== *)
(** ** math/linAlg.js and the vector library (toxiclibs [Vec3D]) *)
(* ===================================================================== *)

Module LinAlg.

(** JavaScript numbers are IEEE 754 doubles: Rocq's primitive floats. *)
Definition PRECISION : float := 0x1.0624dd2f1a9fcp-10%float. (* 1e-3 *)

Definition PI : float := 0x1.921fb54442d18p+1%float. (* Math.PI *)

Record Vec3D := { vx : float; vy : float; vz : float }.

Definition sub (a b : Vec3D) : Vec3D :=
  {| vx := vx a - vx b; vy := vy a - vy b; vz := vz a - vz b |}%float.

Definition dot (a b : Vec3D) : float :=
  (vx a * vx b + vy a * vy b + vz a * vz b)%float.

Definition cross (a b : Vec3D) : Vec3D :=
  {| vx := vy a * vz b - vy b * vz a;
     vy := vz a * vx b - vz b * vx a;
     vz := vx a * vy b - vx b * vy a |}%float.

Definition magnitude (a : Vec3D) : float :=
  PrimFloat.sqrt (vx a * vx a + vy a * vy a + vz a * vz a)%float.

(** [getNormalized]: a copy scaled by [1 / magnitude] when the magnitude
    is positive, an unchanged copy otherwise. *)
Definition getNormalized (a : Vec3D) : Vec3D :=
  let mag := magnitude a in
  if (0 <? mag)%float then
    let inv := (1 / mag)%float in
    {| vx := vx a * inv; vy := vy a * inv; vz := vz a * inv |}%float
  else a.

(** A zero of either sign. *)
Definition isZero (x : float) : Prop :=
  x = 0%float \/ x = PrimFloat.neg_zero.

(** [x || 0] on a number: [NaN], [0] and [-0] are falsy. *)
Definition orZero (x : float) : float :=
  if PrimFloat.is_nan x || PrimFloat.is_zero x then 0%float else x.

End LinAlg.

(* ===================================================================== *)
(** ** math/polyhedra: the mesh model ([FaceLike.ts] and what it rests on) *)
(* ===================================================================== *)

Module Polyhedra.
Import LinAlg.

Record Vertex := { index : nat; vec : Vec3D }.

(** A directed edge from [v1] to [v2]. *)
Record Edge := { v1 : Vertex; v2 : Vertex }.

(** The edge with reversed endpoints. *)
Definition twin (e : Edge) : Edge := {| v1 := v2 e; v2 := v1 e |}.

(** [FaceLike.ts]: anything with vertices and edges. *)
Record FaceLike := { vertices : list Vertex; edges : list Edge }.

(** A concrete face: a [FaceLike] with its index in the polyhedron. *)
Record Face := { faceIndex : nat; faceLike :> FaceLike }.

(** [Face.equals] and [Face.inSet] compare indices. *)
Definition faceEquals (f g : Face) : bool := faceIndex f =? faceIndex g.

(** A cap: the boundary ring, the vertices strictly inside, the faces. *)
Record Cap := {
  boundary : FaceLike;
  innerVertices : list Vertex;
  capFaces : list Face;
}.

(** The polyhedron as the formes consume it. The classes [Polyhedron],
    [Edge] and [Cap] are not part of the sources at hand, so what they
    compute is carried as data: [edgeToFace a b] is the face that owns the
    directed edge from vertex [a] to vertex [b] (every edge of a
    polyhedron has one: construction rejects a mesh with a twinless
    edge), [caps] the detected caps and [largestFace] a face with the
    most sides. *)
Record Polyhedron := {
  polyVertices : list Vertex;
  faces : list Face;
  edgeToFace : nat -> nat -> Face;
  caps : list Cap;
  largestFace : Face;
}.

Definition edgeFace (p : Polyhedron) (e : Edge) : Face :=
  edgeToFace p (index (v1 e)) (index (v2 e)).

(** [Edge.adjacentFaces]: the edge's own face and the one across it. *)
Definition edgeAdjacentFaces (p : Polyhedron) (e : Edge) : Face * Face :=
  (edgeFace p e, edgeFace p (twin e)).

(** [FaceLike.numSides] *)
Definition numSides (f : FaceLike) : nat := length (vertices f).

(** [FaceLike.adjacentFaces] *)
Definition adjacentFaces (p : Polyhedron) (f : FaceLike) : list Face :=
  map (fun edge => edgeFace p (twin edge)) (edges f).

(** The same cap with its boundary read from its [k]-th edge on. *)
Definition relabelBoundary (k : nat) (cap : Cap) : Cap :=
  {| boundary :=
       {| vertices := rotate k (vertices (boundary cap));
          edges := rotate k (edges (boundary cap)) |};
     innerVertices := innerVertices cap;
     capFaces := capFaces cap |}.

(** [FaceLike.normal], over the [getNormal] of [math/geom]. *)
Definition normal (getNormal : list Vec3D -> Vec3D) (f : FaceLike) : Vec3D :=
  getNormal (map vec (vertices f)).

End Polyhedra.

(* ===================================================================== *)
(** ** specs: the Composite classification, as the formes consult it *)
(* ===================================================================== *)

Module Specs.

(** The class [Composite] is not among the sources; the formes only call
    its predicates, which are therefore an interface over an arbitrary
    carrier. [sourcePrismIsSecondary s] stands for
    [s.sourcePrism().isSecondary()], and likewise for the classical
    source. *)
Class CompositeSpecs (C : Type) := {
  name : C -> string;
  isAugmentedPrism : C -> bool;
  isAugmentedClassical : C -> bool;
  isDiminishedSolid : C -> bool;
  isGyrateSolid : C -> bool;
  isMono : C -> bool;
  isAugmented : C -> bool;
  isDiminished : C -> bool;
  sourcePrismIsSecondary : C -> bool;
  sourceClassicalIsIcosahedral : C -> bool;
  sourceClassicalIsTetrahedral : C -> bool;
  sourceClassicalIsRegular : C -> bool;
}.

End Specs.

(* ===================================================================== *)
(** ** math/formes/CompositeForme.ts *)
(* ===================================================================== *)

Module CompositeForme.
Import LinAlg Polyhedra Specs.

(** The four concrete subclasses of [CompositeForme]. *)
Inductive Variant :=
| AugmentedPrismForme
| AugmentedClassicalForme
| DiminishedSolidForme
| GyrateSolidForme.

(** [type Base = Cap | Face] *)
Inductive Base :=
| BaseCap (cap : Cap)
| BaseFace (face : Face).

Inductive Alignment := Para | Meta.

Section Formes.
Context {Composite : Type} `{CompositeSpecs Composite}.

(** [math/geom], not among the sources: the normal of a list of points
    and the test that two vectors are opposite. *)
Variable getNormal : list Vec3D -> Vec3D.
Variable isInverse : Vec3D -> Vec3D -> bool.

(** An instance of one of the subclasses: [new V(specs, geom)]. *)
Record Forme := {
  variant : Variant;
  specs : Composite;
  geom : Polyhedron;
}.

Definition create (specs : Composite) (geom : Polyhedron) : result Forme :=
  if isAugmentedPrism specs then
    Ok {| variant := AugmentedPrismForme; specs := specs; geom := geom |}
  else if isAugmentedClassical specs then
    Ok {| variant := AugmentedClassicalForme; specs := specs; geom := geom |}
  else if isDiminishedSolid specs then
    Ok {| variant := DiminishedSolidForme; specs := specs; geom := geom |}
  else if isGyrateSolid specs then
    Ok {| variant := GyrateSolidForme; specs := specs; geom := geom |}
  else Throw (InvalidCompositeSpecs (name specs)).

(** [caps()]: the caps of the geometry, except that the augmented
    regular tetrahedron keeps [[caps[0]]] only, an array whose one
    element is [undefined] ([None]) when the geometry has no cap. *)
Definition formeCaps (f : Forme) : list (option Cap) :=
  match variant f with
  | AugmentedClassicalForme =>
      if sourceClassicalIsTetrahedral (specs f)
         && sourceClassicalIsRegular (specs f)
      then [head (caps (geom f))]
      else map Some (caps (geom f))
  | _ => map Some (caps (geom f))
  end.

(** [caps.flatMap(cap => cap.innerVertices().map(v => v.index))] *)
Fixpoint innerVertIndices (cs : list (option Cap)) : result (list nat) :=
  match cs with
  | [] => Ok []
  | None :: _ => Throw TypeError
  | Some cap :: cs' =>
      let* rest := innerVertIndices cs' in
      Ok (map index (innerVertices cap) ++ rest)
  end.

(** [capInnerVertIndices]: the set of those indices (memoised). *)
Definition capInnerVertIndices (f : Forme) : result (gset nat) :=
  let* l := innerVertIndices (formeCaps f) in Ok (list_to_set l).

Definition isSourceFace (f : Forme) (face : Face) : result bool :=
  every (fun v =>
           let* inner := capInnerVertIndices f in
           Ok (negb (bool_decide (index v ∈ inner))))
        (vertices face).

Definition hasAlignment (f : Forme) : bool :=
  match variant f with
  | AugmentedPrismForme =>
      isMono (specs f) && sourcePrismIsSecondary (specs f)
  | AugmentedClassicalForme =>
      isMono (specs f) && sourceClassicalIsIcosahedral (specs f)
  | _ => isMono (specs f)
  end.

(** [GyrateSolidForme.isGyrate] (it reads the geometry only) *)
Definition isGyrate (p : Polyhedron) (cap : Cap) : bool :=
  forallb (fun edge =>
             let '(f1, f2) := edgeAdjacentFaces p edge in
             let n1 := numSides f1 in
             let n2 := numSides f2 in
             Bool.eqb (n1 =? 4) (n2 =? 4))
          (edges (boundary cap)).

Definition gyrateCaps (f : Forme) : list Cap :=
  filter (fun cap => isGyrate (geom f) cap = true) (caps (geom f)).

(** [isDiminishedFace], the same in the diminished and gyrate formes *)
Definition isDiminishedFace (f : Forme) (face : Face) : bool :=
  isDiminished (specs f)
  && (numSides face =? numSides (largestFace (geom f))).

Definition diminishedFaces (f : Forme) : list Face :=
  filter (fun face => isDiminishedFace f face = true) (faces (geom f)).

(** [modifications()]; an entry is [None] where the array holds
    [undefined]. *)
Definition modifications (f : Forme) : list (option Base) :=
  match variant f with
  | AugmentedPrismForme | AugmentedClassicalForme =>
      map (fmap BaseCap) (formeCaps f)
  | DiminishedSolidForme =>
      map (fun face => Some (BaseFace face)) (diminishedFaces f)
  | GyrateSolidForme =>
      map (fun cap => Some (BaseCap cap)) (gyrateCaps f)
      ++ map (fun face => Some (BaseFace face)) (diminishedFaces f)
  end.

(** [normal()] of a face, and of a cap (the normal of its boundary). *)
Definition baseNormal (b : Base) : Vec3D :=
  match b with
  | BaseCap cap => normal getNormal (boundary cap)
  | BaseFace face => normal getNormal face
  end.

(** [alignment(cap)]; [Ok None] is [undefined]. *)
Definition alignment (f : Forme) (site : Base) : result (option Alignment) :=
  if negb (hasAlignment f) then Ok None
  else
    let siteNormal := baseNormal site in
    let* single := getSingle (modifications f) in
    match single with
    | None => Throw TypeError
    | Some m =>
        Ok (Some (if isInverse siteNormal (baseNormal m) then Para else Meta))
    end.

(** [AugmentedPrismForme.isSideFace] *)
Definition isSideFace (face : Face) : bool := numSides face =? 4.

(** [AugmentedClassicalForme.isMainFace] *)
Definition isMainFace (f : Forme) (face : Face) : result bool :=
  let* source := isSourceFace f face in
  if negb source then Ok false
  else if sourceClassicalIsRegular (specs f) then Ok true
  else Ok (negb (numSides face =? 3)).

(** [this.caps().every(cap => cap.boundary().adjacentFaces()
      .every(f => !f.equals(face)))] *)
Definition awayFromCaps (f : Forme) (face : Face) : result bool :=
  every (fun cap =>
           match cap with
           | None => Throw TypeError
           | Some c =>
               Ok (forallb (fun g => negb (faceEquals g face))
                           (adjacentFaces (geom f) (boundary c)))
           end)
        (formeCaps f).

Definition canAugment (f : Forme) (face : Face) : result bool :=
  match variant f with
  | AugmentedPrismForme =>
      if negb (isSideFace face) then Ok false else awayFromCaps f face
  | AugmentedClassicalForme =>
      let* main := isMainFace f face in
      if negb main then Ok false else awayFromCaps f face
  | DiminishedSolidForme =>
      if isAugmented (specs f) then Ok false
      else Ok (isDiminishedFace f face
               || forallb (fun g : Face => numSides g =? 5)
                          (adjacentFaces (geom f) face))
  | GyrateSolidForme => Ok (isDiminishedFace f face)
  end.

End Formes.

Arguments Forme Composite : clear implicits.

End CompositeForme.

(* ===================================================================== *)
(** ** math/operations/operationPairs.ts *)
(* ===================================================================== *)

Module OperationPairs.

Definition oppositeSide (side : Side) : Side :=
  match side with SLeft => SRight | SRight => SLeft end.

Definition sideEqb (a b : Side) : bool :=
  match a, b with
  | SLeft, SLeft | SRight, SRight => true
  | _, _ => false
  end.

(** [interface GraphOpts<L, R>]; both option types are plain objects. *)
Record GraphOpts := { optsLeft : object; optsRight : object }.

Definition optsOf (side : Side) (o : GraphOpts) : object :=
  match side with SLeft => optsLeft o | SRight => optsRight o end.

Section Engine.
(** The classification values and their two comparisons ([equals],
    [equivalent]) and name; formes, geometries, poses and vertex lists
    are those of the collaborating modules. *)
Context {Specs Forme Geom Pose Verts : Type}.
Variable equals : Specs -> Specs -> bool.
Variable equivalent : Specs -> Specs -> bool.
Variable specName : Specs -> string.
Variable formeSpecs : Forme -> Specs.
Variable formeGeom : Forme -> Geom.
Variable geomVertices : Geom -> Verts.
(** [createForme], [getGeometry], [alignPolyhedron] and
    [Polyhedron.withVertices]: each may throw. *)
Variable createForme : Specs -> Geom -> result Forme.
Variable getGeometry : Specs -> result Geom.
Variable alignPolyhedron : Geom -> Pose -> Pose -> result Geom.
Variable withVertices : Geom -> Verts -> result Geom.

(** [interface GraphEntry<Specs, L, R>] *)
Record GraphEntry := {
  left : Specs;
  right : Specs;
  options : option GraphOpts;
}.

Definition specsOf (side : Side) (entry : GraphEntry) : Specs :=
  match side with SLeft => left entry | SRight => right entry end.

(** [entry.options?.[side] ?? {}] *)
Definition entryOpts (side : Side) (entry : GraphEntry) : object :=
  default ∅ (optsOf side <$> options entry).

(** The directed entries of [./Operation]. *)
Record DirectedGraphEntry := {
  start : Specs;
  finish : Specs;
  dirOptions : option object;
}.

Definition toDirected (side : Side) (graph : list GraphEntry)
  : list DirectedGraphEntry :=
  map (fun entry =>
         {| start := specsOf side entry;
            finish := specsOf (oppositeSide side) entry;
            dirOptions := optsOf side <$> options entry |})
      graph.

(** What the middle getter hands back: a Specs value or a forme. *)
Definition Middle : Type := Specs + Forme.

(** [interface OpPairInput]; the graph generator is the list it yields. *)
Record OpPairInput := {
  graph : list GraphEntry;
  middle : Side + (GraphEntry -> result Middle);
  getPose : Forme -> GraphOpts -> result Pose;
  toLeft : option (Forme -> GraphOpts -> Specs -> result Verts);
  toRight : option (Forme -> GraphOpts -> Specs -> result Verts);
}.

Definition defaultGetter (solid : Forme) (_ : GraphOpts) (_ : Specs)
  : result Verts :=
  Ok (geomVertices (formeGeom solid)).

(** [class OpPair]: its inputs (the constructor copies the graph). *)
Definition OpPair : Type := OpPairInput.

Definition getEntries (op : OpPair) (side : Side) (specs : Specs)
  : list GraphEntry :=
  filter (fun entry => equals (specsOf side entry) specs = true) (graph op).

(** The predicate [findEntry] searches with. *)
Definition entryMatches (side : Side) (specs : Specs) (opts : option object)
           (entry : GraphEntry) : bool :=
  equals (specsOf side entry) specs
  && isMatch (entryOpts side entry) (default ∅ opts).

Definition findEntry (op : OpPair) (side : Side) (specs : Specs)
           (opts : option object) : option GraphEntry :=
  List.find (entryMatches side specs opts) (graph op).

Definition getEntry (op : OpPair) (side : Side) (specs : Specs)
           (opts : option object) : result GraphEntry :=
  match findEntry op side specs opts with
  | Some entry => Ok entry
  | None => Throw (CouldNotFindEntry side (specName specs))
  end.

Definition hasOptions (op : OpPair) (side : Side) (specs : Specs) : bool :=
  1 <? length (getEntries op side specs).

Definition allOptions (op : OpPair) (side : Side) (specs : Specs)
  : list object :=
  map (entryOpts side) (getEntries op side specs).

Definition canApplyTo (op : OpPair) (side : Side) (specs : Specs) : bool :=
  bool_decide (is_Some (findEntry op side specs None)).

Definition getOpposite (op : OpPair) (side : Side) (specs : Specs)
           (opts : option object) : result Specs :=
  let* entry := getEntry op side specs opts in
  Ok (specsOf (oppositeSide side) entry).

(** What [apply] returns. *)
Record OpResult := {
  animationStart : Geom;
  animationEndVertices : Verts;
  resultGeom : Geom;
}.

(** [apply], once the graph entry is known. *)
Definition applyEntry (op : OpPair) (side : Side) (solid : Forme)
           (entry : GraphEntry) : result OpResult :=
  let getMiddle := middle op in
  let toLeftFn := default defaultGetter (toLeft op) in
  let toRightFn := default defaultGetter (toRight op) in
  let opts := default {| optsLeft := ∅; optsRight := ∅ |} (options entry) in
  let* solidForme := createForme (formeSpecs solid) (formeGeom solid) in
  let* startPose := getPose op solidForme opts in
  let endSide := oppositeSide side in
  let endSpecs := specsOf endSide entry in
  let* endGeom := getGeometry endSpecs in
  let* endForme := createForme endSpecs endGeom in
  let* endPose := getPose op endForme opts in
  let* alignedEnd := alignPolyhedron endGeom endPose startPose in
  let* mid :=
    match getMiddle with
    | inl s =>
        if sideEqb s side then Ok solidForme
        else createForme endSpecs alignedEnd
    | inr getter =>
        let* inter := getter entry in
        let* middleSolid :=
          match inter with
          | inr forme => Ok forme
          | inl sp => let* g := getGeometry sp in createForme sp g
          end in
        let* midPose := getPose op middleSolid opts in
        let* alignedInter :=
          alignPolyhedron (formeGeom middleSolid) midPose startPose in
        createForme (formeSpecs middleSolid) alignedInter
    end in
  let '(startFn, endFn) :=
    match side with
    | SLeft => (toLeftFn, toRightFn)
    | SRight => (toRightFn, toLeftFn)
    end in
  let* startVerts := startFn mid opts (formeSpecs solid) in
  let* startGeom := withVertices (formeGeom mid) startVerts in
  let* endVerts := endFn mid opts endSpecs in
  Ok {| animationStart := startGeom;
        animationEndVertices := endVerts;
        resultGeom := alignedEnd |}.

Definition apply (op : OpPair) (side : Side) (solid : Forme)
           (opts : option object) : result OpResult :=
  let* entry := getEntry op side (formeSpecs solid) opts in
  applyEntry op side solid entry.

(** [type OpInput<O, F, GO>]: a one-way operation. Graph options are an
    object or [undefined]. *)
Record OpInput (O : Type) := {
  opApply : Forme -> O -> result OpResult;
  opGraph : list DirectedGraphEntry;
  opToGraphOpts : Forme -> O -> result (option object);
}.
Arguments opApply {O} _ _ _.
Arguments opGraph {O} _.
Arguments opToGraphOpts {O} _ _ _.

Definition makeOperation (side : Side) (op : OpPair)
  : OpInput (option object) :=
  {| opApply := fun solid opts => apply op side solid opts;
     opGraph := toDirected side (graph op);
     opToGraphOpts := fun _ opts => Ok opts |}.

Definition makeOpPair (opInput : OpPairInput)
  : OpInput (option object) * OpInput (option object) :=
  (makeOperation SLeft opInput, makeOperation SRight opInput).

(** [pickBy(graphOpts)]; [pickBy(undefined)] is the empty object. *)
Definition pickByOpts (graphOpts : option object) : object :=
  match graphOpts with
  | Some o => pickBy o
  | None => ∅
  end.

Section Combine.
Context {O : Type}.

(** The inner loop of [doWithRightForme], over one sub-operation's
    graph: the forme and graph options of its first entry that is
    equivalent to the solid's specs and whose options match. *)
Fixpoint scanGraph (op : OpInput O) (solid : Forme) (opts : O)
         (entries : list DirectedGraphEntry)
  : result (option (Forme * option object)) :=
  match entries with
  | [] => Ok None
  | entry :: rest =>
      if negb (equivalent (start entry) (formeSpecs solid))
      then scanGraph op solid opts rest
      else
        let* forme := createForme (start entry) (formeGeom solid) in
        let* graphOpts := opToGraphOpts op forme opts in
        if isMatch (default ∅ (dirOptions entry)) (pickByOpts graphOpts)
        then Ok (Some (forme, graphOpts))
        else scanGraph op solid opts rest
  end.

Fixpoint doWithRightForme {R} (opArgs : list (OpInput O))
         (solid : Forme) (opts : O)
         (callback : OpInput O -> Forme -> option object -> result R)
  : result R :=
  match opArgs with
  | [] => Throw (NoMatchingGraphEntry (specName (formeSpecs solid)))
  | op :: rest =>
      let* found := scanGraph op solid opts (opGraph op) in
      match found with
      | Some (forme, graphOpts) => callback op forme graphOpts
      | None => doWithRightForme rest solid opts callback
      end
  end.

(** What the loop sees at one entry: it takes the entry when the
    start is equivalent to the solid's specs and the entry's options
    match the derived graph options; it passes over the entry when
    the start is not equivalent, or the options do not match. *)
Definition takes (op : OpInput O) (solid : Forme) (opts : O)
           (entry : DirectedGraphEntry) (forme : Forme)
           (graphOpts : option object) : Prop :=
  equivalent (start entry) (formeSpecs solid) = true
  /\ createForme (start entry) (formeGeom solid) = Ok forme
  /\ opToGraphOpts op forme opts = Ok graphOpts
  /\ isMatch (default ∅ (dirOptions entry)) (pickByOpts graphOpts) = true.

Definition passes (op : OpInput O) (solid : Forme) (opts : O)
           (entry : DirectedGraphEntry) : Prop :=
  equivalent (start entry) (formeSpecs solid) = false
  \/ exists forme graphOpts,
       createForme (start entry) (formeGeom solid) = Ok forme
       /\ opToGraphOpts op forme opts = Ok graphOpts
       /\ isMatch (default ∅ (dirOptions entry)) (pickByOpts graphOpts)
          = false.

Definition combineOps (opArgs : list (OpInput O)) : OpInput O :=
  {| opGraph := flat_map opGraph opArgs;
     opApply := fun solid opts =>
       doWithRightForme opArgs solid opts
         (fun op forme _ => opApply op forme opts);
     opToGraphOpts := fun solid opts =>
       doWithRightForme opArgs solid opts
         (fun _ _ graphOpts => Ok graphOpts) |}.

End Combine.

End Engine.

Arguments opApply {Specs Forme Geom Verts O} _ _ _.
Arguments opGraph {Specs Forme Geom Verts O} _.
Arguments opToGraphOpts {Specs Forme Geom Verts O} _ _ _.

End OperationPairs.

(* ===================================================================== *)
(** ** The prism operations (elongate, gyroelongate, shorten, turn), built
       on [makeOpPair] and [combineOps] *)
(* ===================================================================== *)

Module PrismOps.
Import OperationPairs.

Inductive Elongation := Prism | Antiprism.
Inductive Twist := TwistLeft | TwistRight.
Inductive CapstoneType := Primary | Secondary.
Inductive Gyrate := Ortho | Gyro.

#[global] Instance Elongation_eq_dec : EqDecision Elongation.
Proof. solve_decision. Defined.
#[global] Instance Twist_eq_dec : EqDecision Twist.
Proof. solve_decision. Defined.
#[global] Instance CapstoneType_eq_dec : EqDecision CapstoneType.
Proof. solve_decision. Defined.
#[global] Instance Gyrate_eq_dec : EqDecision Gyrate.
Proof. solve_decision. Defined.

(** Modelled from the spec: the class [Capstone] is not among the
    sources. Its data are a base-sides count, primary or secondary, an
    elongation (none, prism, antiprism), a count of caps (none, mono, bi),
    the relative orientation of two caps and a twist (none, left, right);
    the sources read [data.base] and [data.elongation] and overwrite
    [elongation] and [twist] through [withData]. *)
Record Capstone := {
  base : Z;
  type : CapstoneType;
  elongation : option Elongation;
  count : Z;
  gyrate : option Gyrate;
  twist : option Twist;
}.

#[global] Instance Capstone_eq_dec : EqDecision Capstone.
Proof. solve_decision. Defined.

(** [withData({ elongation })] and [withData({ elongation, twist })] *)
Definition withElongation (s : Capstone) (e : option Elongation) : Capstone :=
  {| base := base s; type := type s; elongation := e; count := count s;
     gyrate := gyrate s; twist := twist s |}.

Definition withElongationTwist (s : Capstone) (e : option Elongation)
           (t : option Twist) : Capstone :=
  {| base := base s; type := type s; elongation := e; count := count s;
     gyrate := gyrate s; twist := t |}.

(** Modelled from the spec: two Specs with identical field values are
    [equal]. *)
Definition equals (a b : Capstone) : bool := bool_decide (a = b).

(** Modelled from the spec: the relaxed comparison ignores the twist
    direction. *)
Definition equivalent (a b : Capstone) : bool :=
  bool_decide (withElongationTwist a (elongation a) None
               = withElongationTwist b (elongation b) None).

Definition oppositeTwist (t : Twist) : Twist :=
  match t with TwistLeft => TwistRight | TwistRight => TwistLeft end.

Definition twists : list Twist := [TwistLeft; TwistRight].

Definition twistValue (t : Twist) : value :=
  match t with TwistLeft => VStr "left" | TwistRight => VStr "right" end.

(** The option object [{ twist }]. *)
Definition twistOpts (t : Twist) : object := {[ "twist" := twistValue t ]}.

(** The predicates of [Capstone] that the graphs consult. *)
Record CapstonePredicates := {
  isPrismatic : Capstone -> bool;
  isPrism : Capstone -> bool;
  isDigonal : Capstone -> bool;
  isTriangular : Capstone -> bool;
  isPrimary : Capstone -> bool;
  isSecondary : Capstone -> bool;
  isMono : Capstone -> bool;
  isBi : Capstone -> bool;
  isGyro : Capstone -> bool;
}.

Section Ops.
Context {Forme Geom Pose Verts : Type}.
(** [Capstone.query]: the catalog the graphs are drawn from. *)
Variable table : list Capstone.
Variable P : CapstonePredicates.
Variable name : Capstone -> string.
(** Geometry: the pose of a capstone forme and the prism transform. *)
Variable getCapstonePose : Forme -> option Twist -> result Pose.
Variable doPrismTransform :
  Forme -> Capstone -> option Twist -> result Verts.

Abbreviation Entry := (@GraphEntry Capstone).
Abbreviation Input := (@OpPairInput Capstone Forme Pose Verts).

Definition prismGraph (query : Capstone -> bool)
           (rightElongation : Elongation)
           (leftElongation : option Elongation) : list Entry :=
  map (fun item =>
         {| left := withElongation item leftElongation;
            right := item;
            options := None |})
      (filter (fun s =>
                 (query s && negb (isPrismatic P s)
                  && bool_decide (elongation s = Some rightElongation))
                 = true)
              table).

(** [makePrismOp({ query, rightElongation })(leftElongation)], before
    [makeOpPair]; the pose callback hands the forme and the twist to
    [getCapstonePose]. *)
Definition makePrismOp (query : Capstone -> bool)
           (rightElongation : Elongation)
           (leftElongation : option Elongation) : Input :=
  let twist :=
    match rightElongation with
    | Prism => None
    | Antiprism => Some TwistLeft
    end in
  {| graph := prismGraph query rightElongation leftElongation;
     middle := inl SRight;
     getPose := fun forme _ => getCapstonePose forme twist;
     toLeft := Some (fun forme _ result =>
                       doPrismTransform forme result twist);
     toRight := None |}.

Definition elongatePair : Input :=
  makePrismOp (fun s => negb (isDigonal P s)) Prism None.

Definition canGyroelongPrimary (s : Capstone) : bool :=
  isPrimary P s && negb (isTriangular P s).

Definition canGyroelongSecondary (s : Capstone) : bool :=
  isSecondary P s && negb (isDigonal P s).

Definition pyramidOps : option Elongation -> Input :=
  makePrismOp canGyroelongPrimary Antiprism.

Definition gyroelongPyramid : Input := pyramidOps None.
Definition turnPyramid : Input := pyramidOps (Some Prism).

Definition cupolaOps : option Elongation -> Input :=
  makePrismOp (fun s => canGyroelongSecondary s && isMono P s) Antiprism.

Definition gyroelongCupola : Input := cupolaOps None.
Definition turnCupola : Input := cupolaOps (Some Prism).

Definition bicupolaGraph (leftElongation : option Elongation)
  : list Entry :=
  flat_map
    (fun entry =>
       map (fun twist =>
              {| left := entry;
                 right :=
                   withElongationTwist entry (Some Antiprism)
                     (Some (if isGyro P entry then twist
                            else oppositeTwist twist));
                 options :=
                   Some {| optsLeft := twistOpts twist;
                           optsRight := twistOpts (oppositeTwist twist) |}
              |})
           twists)
    (filter (fun s =>
               (canGyroelongSecondary s && isBi P s
                && bool_decide (elongation s = leftElongation)) = true)
            table).

(** The twist an option object names, if any. *)
Definition readTwist (o : object) : option Twist :=
  match o !! "twist" with
  | Some (VStr "left") => Some TwistLeft
  | Some (VStr "right") => Some TwistRight
  | _ => None
  end.

Definition makeBicupolaPrismOp (leftElongation : option Elongation)
  : Input :=
  {| graph := bicupolaGraph leftElongation;
     middle := inl SRight;
     getPose := fun forme opts =>
                  getCapstonePose forme (readTwist (optsRight opts));
     toLeft := Some (fun forme opts result =>
                       doPrismTransform forme result
                         (readTwist (optsRight opts)));
     toRight := None |}.

Definition gyroelongBicupola : Input := makeBicupolaPrismOp None.
Definition turnBicupola : Input := makeBicupolaPrismOp (Some Prism).

Section Exported.
Variable formeSpecs : Forme -> Capstone.
Variable formeGeom : Forme -> Geom.
Variable geomVertices : Geom -> Verts.
Variable createForme : Capstone -> Geom -> result Forme.
Variable getGeometry : Capstone -> result Geom.
Variable alignPolyhedron : Geom -> Pose -> Pose -> result Geom.
Variable withVertices : Geom -> Verts -> result Geom.

Abbreviation pair :=
  (makeOpPair equals name formeSpecs formeGeom geomVertices createForme
     getGeometry alignPolyhedron withVertices).
Abbreviation combine :=
  (combineOps equivalent name formeSpecs formeGeom createForme).

(** [elongate]: the left operation of the elongate pair. *)
Definition elongate := fst (pair elongatePair).

Definition gyroelongate :=
  combine
    (map (fun op => fst (pair op))
         [gyroelongPyramid; gyroelongCupola; gyroelongBicupola]).

Definition shorten :=
  combine
    (map (fun op => snd (pair op))
         [elongatePair; gyroelongPyramid; gyroelongCupola;
          gyroelongBicupola]).
End Exported.

End Ops.

End PrismOps.

(* ===================================================================== *)
(** ** math/operations/augment.js (the legacy augmentation) *)
(* ===================================================================== *)

Module Augment.
Import LinAlg.

(** The legacy mesh API, as [augment.js] calls it: an edge knows its
    dihedral angle; a face its side count, its edges in order and the
    edge at an integer position ([face.edge(i)]); a polyhedron its faces
    and a face with a given side count, if it has one. *)
Record Edge := { dihedralAngle : float }.

Record Face := {
  numSides : nat;
  edges : list Edge;
  edge : Z -> Edge;
}.

Record Polyhedron := {
  getFaces : list Face;
  faceWithNumSides : nat -> option Face;
}.

(** The [augmentees] table, by kind and number of sides. *)
Definition pyramid (n : nat) : option string :=
  match n with
  | 3 => Some "tetrahedron"
  | 4 => Some "square-pyramid"
  | 5 => Some "pentagonal-pyramid"
  | _ => None
  end.

Definition cupola (n : nat) : option string :=
  match n with
  | 2 => Some "triangular-prism"
  | 3 => Some "triangular-cupola"
  | 4 => Some "square-cupola"
  | 5 => Some "pentagonal-cupola"
  | _ => None
  end.

Definition rotunda (n : nat) : option string :=
  match n with
  | 5 => Some "pentagonal-rotunda"
  | _ => None
  end.

(** [n / 2] as a table key: a key only when [n] is even. *)
Definition half (n : nat) : option nat :=
  if Nat.even n then Some (Nat.div2 n) else None.

(** [_.every(collection, (value, index) => ...)] *)
Fixpoint everyFrom {A} (p : nat -> A -> result bool) (i : nat) (l : list A)
  : result bool :=
  match l with
  | [] => Ok true
  | a :: l' =>
      let* b := p i a in
      if b then everyFrom p (S i) l' else Ok false
  end.

Definition everyIndexed {A} (p : nat -> A -> result bool) (l : list A)
  : result bool := everyFrom p 0 l.

(** The test of one edge pair. *)
Definition convexAt (baseAngle augmenteeAngle : float) : bool :=
  (baseAngle + augmenteeAngle <? PI - PRECISION)%float.

Section Augmentees.
(** [Polyhedron.get]: the geometry provider. *)
Variable get : string -> Polyhedron.

(** [_.compact([pyramid[n], cupola[n / 2], rotunda[n / 2]])] over
    [augmentData] *)
Definition getPossibleAugmentees (n : nat) : list Polyhedron :=
  map get
      (omap id [pyramid n; half n ≫= cupola; half n ≫= rotunda]).

Definition canAugmentWith (base : Face) (augmentee : Polyhedron)
           (offset : Z) : result bool :=
  let n := numSides base in
  let underside := faceWithNumSides augmentee n in
  everyIndexed
    (fun i e =>
       let baseAngle := dihedralAngle e in
       match underside with
       | None => Throw TypeError
       | Some u =>
           let edge2 := edge u (Z.of_nat i - 1 + offset) in
           let augmenteeAngle := dihedralAngle edge2 in
           Ok (convexAt baseAngle augmenteeAngle)
       end)
    (edges base).

(** The two nested loops of [canAugment], with their early return. *)
Fixpoint tryOffsets (base : Face) (augmentee : Polyhedron)
         (offsets : list Z) : result bool :=
  match offsets with
  | [] => Ok false
  | offset :: rest =>
      let* ok := canAugmentWith base augmentee offset in
      if ok then Ok true else tryOffsets base augmentee rest
  end.

Fixpoint tryAugmentees (base : Face) (augmentees : list Polyhedron)
  : result bool :=
  match augmentees with
  | [] => Ok false
  | augmentee :: rest =>
      let* ok := tryOffsets base augmentee [0; 1]%Z in
      if ok then Ok true else tryAugmentees base rest
  end.

Definition canAugment (base : Face) : result bool :=
  tryAugmentees base (getPossibleAugmentees (numSides base)).

(** [polyhedron.getFaces().map(face => canAugment(face))] *)
Fixpoint mapResult {A B} (f : A -> result B) (l : list A)
  : result (list B) :=
  match l with
  | [] => Ok []
  | a :: l' =>
      let* b := f a in
      let* bs := mapResult f l' in
      Ok (b :: bs)
  end.

Definition getAugmentGraph (polyhedron : Polyhedron) : result (list bool) :=
  mapResult canAugment (getFaces polyhedron).
End Augmentees.

Section Align.
(** [Math.acos] *)
Variable acos : float -> float.

(** [a.angleBetween(b, true)]: the angle of the normalised copies. *)
Definition angleBetween (a b : Vec3D) : float :=
  acos (dot (getNormalized a) (getNormalized b)).

(** The [alignBasesNormal] of [doAugment]. *)
Definition alignBasesNormal (undersideNormal baseNormal baseV0 baseCenter
                             : Vec3D) : Vec3D :=
  let cross := getNormalized (cross undersideNormal baseNormal) in
  if (magnitude cross <? PRECISION)%float
  then getNormalized (sub baseV0 baseCenter)
  else cross.

(** [baseNormal.angleBetween(undersideNormal, true) || 0] *)
Definition alignBasesAngle (undersideNormal baseNormal : Vec3D) : float :=
  orZero (angleBetween baseNormal undersideNormal).
End Align.

End Augment.

(* ===================================================================== *)
(** ** Concrete solids and graphs *)
(* ===================================================================== *)

Module Solids.
Import LinAlg Polyhedra Specs CompositeForme.

(** *** Building a mesh from a vertex table and index lists *)

Definition mkVertex (i : nat) (x y z : float) : Vertex :=
  {| index := i; vec := {| vx := x; vy := y; vz := z |} |}.

(** The edges of a ring of vertices: each vertex to the next, cyclically. *)
Definition ringEdges (vs : list Vertex) : list Edge :=
  zip_with (fun a b => {| v1 := a; v2 := b |}) vs (rotate 1 vs).

Definition mkFaceLike (vs : list Vertex) : FaceLike :=
  {| vertices := vs; edges := ringEdges vs |}.

Definition nullVertex : Vertex := mkVertex 0 0 0 0.

Definition pick (table : list Vertex) (ids : list nat) : list Vertex :=
  map (fun i => nth i table nullVertex) ids.

Definition mkFace (table : list Vertex) (i : nat) (ids : list nat) : Face :=
  {| faceIndex := i; faceLike := mkFaceLike (pick table ids) |}.

Definition mkFaces (table : list Vertex) (idss : list (list nat))
  : list Face := imap (mkFace table) idss.

Definition ownsEdge (a b : nat) (f : Face) : bool :=
  existsb (fun e => (index (v1 e) =? a) && (index (v2 e) =? b)) (edges f).

Definition nullFace : Face := {| faceIndex := 0; faceLike := mkFaceLike [] |}.

(** The face that owns the directed edge [a -> b]. *)
Definition ownerOf (fs : list Face) (a b : nat) : Face :=
  default nullFace (List.find (ownsEdge a b) fs).

(** lodash [maxBy(faces, "numSides")]: the first face with the most sides. *)
Definition maxBySides (fs : list Face) : Face :=
  foldl (fun best f : Face =>
           if numSides best <? numSides f then f else best)
        (hd nullFace fs) fs.

(** A cap around inner vertices, given its boundary ring and its faces. *)
Definition mkCap (table : list Vertex) (fs : list Face)
           (inner ring faceIds : list nat) : Cap :=
  {| boundary := mkFaceLike (pick table ring);
     innerVertices := pick table inner;
     capFaces := map (fun i => nth i fs nullFace) faceIds |}.

Definition mkPolyhedron (table : list Vertex) (idss : list (list nat))
           (capData : list (list nat * list nat * list nat)) : Polyhedron :=
  let fs := mkFaces table idss in
  {| polyVertices := table;
     faces := fs;
     edgeToFace := ownerOf fs;
     caps := map (fun '(inner, ring, faceIds) =>
                    mkCap table fs inner ring faceIds) capData;
     largestFace := maxBySides fs |}.

(** Every directed edge of every face has an owner across it and belongs
    to one face only: the half-edge structure is consistent. *)
Definition closedMesh (p : Polyhedron) : bool :=
  forallb (fun f : Face =>
             forallb (fun e =>
                        (faceIndex (edgeFace p e) =? faceIndex f)
                        && ownsEdge (index (v2 e)) (index (v1 e))
                                    (edgeFace p (twin e))
                        && (length (filter
                                      (fun g => ownsEdge (index (v1 e))
                                                         (index (v2 e)) g = true)
                                      (faces p)) =? 1))
                     (edges f))
          (faces p).

(** Each boundary edge of each cap lies on a face of the cap, with a face
    outside the cap across it. *)
Definition capsBounded (p : Polyhedron) : bool :=
  forallb (fun c =>
             forallb (fun e =>
                        existsb (faceEquals (edgeFace p e)) (capFaces c)
                        && negb (existsb (faceEquals (edgeFace p (twin e)))
                                         (capFaces c)))
                     (edges (boundary c)))
          (caps p).

(** *** The diminished icosahedron (J11, the gyroelongated pentagonal
        pyramid): an icosahedron of edge 2 without the vertex
        [(0, 1, phi)]. *)

Definition phi : float := 0x1.9e3779b97f4a8p+0%float.

Definition j11Vertices : list Vertex :=
  [ mkVertex 0 1 phi 0;
    mkVertex 1 phi 0 1;
    mkVertex 2 0 1 (- phi);
    mkVertex 3 1 (- phi) 0;
    mkVertex 4 (- phi) 0 1;
    mkVertex 5 0 (-1) phi;
    mkVertex 6 (-1) phi 0;
    mkVertex 7 phi 0 (-1);
    mkVertex 8 0 (-1) (- phi);
    mkVertex 9 (-1) (- phi) 0;
    mkVertex 10 (- phi) 0 (-1) ]%float.

(** Fifteen triangles and, last, the pentagon left by the missing vertex;
    each face counter-clockwise seen from outside. *)
Definition j11Faces : list (list nat) :=
  [ [0; 1; 7]; [0; 2; 6]; [0; 7; 2]; [1; 5; 3]; [1; 3; 7]; [2; 10; 6];
    [2; 7; 8]; [2; 8; 10]; [3; 5; 9]; [3; 8; 7]; [3; 9; 8]; [4; 9; 5];
    [4; 6; 10]; [4; 10; 9]; [8; 9; 10]; [6; 4; 5; 1; 0] ].

(** The pyramid caps: the six vertices that five triangles surround, each
    with its boundary ring and its faces. *)
Definition j11Caps : list (list nat * list nat * list nat) :=
  [ ([2], [0; 7; 8; 10; 6], [1; 2; 5; 6; 7]);
    ([3], [1; 5; 9; 8; 7], [3; 4; 8; 9; 10]);
    ([7], [0; 1; 3; 8; 2], [0; 2; 4; 6; 9]);
    ([8], [2; 7; 3; 9; 10], [6; 7; 9; 10; 14]);
    ([9], [3; 5; 4; 10; 8], [8; 10; 11; 13; 14]);
    ([10], [2; 8; 9; 4; 6], [5; 7; 12; 13; 14]) ].

Definition j11 : Polyhedron := mkPolyhedron j11Vertices j11Faces j11Caps.

Definition j11Pentagon : Face := nth 15 (faces j11) nullFace.

(** The cap around vertex 2; the pentagon lies across its edge [6 -> 0]. *)
Definition j11Cap2 : Cap := nth 0 (caps j11) (mkCap [] [] [] [] []).

(** *** A Composite carrier *)

Inductive Source :=
| PrismSource (sides : nat)
| Tetrahedron
| TruncatedTetrahedron
| Dodecahedron
| Icosahedron
| Rhombicosidodecahedron.

(** Modelled from the spec: a Composite is a source shape plus counts of
    augmentations, diminishments and gyrations (the alignment tag plays no
    part here). The predicates below are one reading of their names, used
    for the concrete solids only; the theorems hold for any instance of
    the interface. *)
Record CompositeData := {
  source : Source;
  augmented : nat;
  diminished : nat;
  gyrated : nat;
}.

Definition isPrismSource (s : Source) : bool :=
  match s with PrismSource _ => true | _ => false end.

#[global] Instance CompositeData_specs : CompositeSpecs CompositeData := {|
  name := fun s =>
    match source s with
    | PrismSource _ => "prism"
    | Tetrahedron => "tetrahedron"
    | TruncatedTetrahedron => "truncated tetrahedron"
    | Dodecahedron => "dodecahedron"
    | Icosahedron => "icosahedron"
    | Rhombicosidodecahedron => "rhombicosidodecahedron"
    end;
  isAugmentedPrism := fun s => isPrismSource (source s);
  isAugmentedClassical := fun s =>
    match source s with
    | Tetrahedron | TruncatedTetrahedron | Dodecahedron => true
    | _ => false
    end;
  isDiminishedSolid := fun s =>
    match source s with Icosahedron => true | _ => false end;
  isGyrateSolid := fun s =>
    match source s with Rhombicosidodecahedron => true | _ => false end;
  isMono := fun s => augmented s + diminished s + gyrated s =? 1;
  isAugmented := fun s => 0 <? augmented s;
  isDiminished := fun s => 0 <? diminished s;
  sourcePrismIsSecondary := fun s =>
    match source s with PrismSource n => 5 <? n | _ => false end;
  sourceClassicalIsIcosahedral := fun s =>
    match source s with Dodecahedron | Icosahedron => true | _ => false end;
  sourceClassicalIsTetrahedral := fun s =>
    match source s with
    | Tetrahedron | TruncatedTetrahedron => true
    | _ => false
    end;
  sourceClassicalIsRegular := fun s =>
    match source s with
    | Tetrahedron | Dodecahedron | Icosahedron => true
    | _ => false
    end;
|}.

Definition diminishedIcosahedron : CompositeData :=
  {| source := Icosahedron; augmented := 0; diminished := 1; gyrated := 0 |}.

Definition j11Forme : Forme CompositeData :=
  {| variant := DiminishedSolidForme;
     specs := diminishedIcosahedron;
     geom := j11 |}.

(** *** The augmented pentagonal prism (J52): a pentagonal prism of edge
        2 with a square pyramid on the side face [0 1 6 5]. *)

Definition j52Vertices : list Vertex :=
  [ mkVertex 0 (0x1.b38880b4603e4p+0) 0 (-1);
    mkVertex 1 (0x1.0d2ca0da1530dp-1) (0x1.9e3779b97f4a7p+0) (-1);
    mkVertex 2 (-0x1.605a90c73ab78p+0) (0x1.0000000000001p+0) (-1);
    mkVertex 3 (-0x1.605a90c73ab79p+0) (-0x1.ffffffffffffep-1) (-1);
    mkVertex 4 (0x1.0d2ca0da1530ap-1) (-0x1.9e3779b97f4a8p+0) (-1);
    mkVertex 5 (0x1.b38880b4603e4p+0) 0 1;
    mkVertex 6 (0x1.0d2ca0da1530dp-1) (0x1.9e3779b97f4a7p+0) 1;
    mkVertex 7 (-0x1.605a90c73ab78p+0) (0x1.0000000000001p+0) 1;
    mkVertex 8 (-0x1.605a90c73ab79p+0) (-0x1.ffffffffffffep-1) 1;
    mkVertex 9 (0x1.0d2ca0da1530ap-1) (-0x1.9e3779b97f4a8p+0) 1;
    mkVertex 10 (0x1.20fa5200c29a9p+1) (0x1.a3e8caaeee213p+0) 0 ]%float.

(** The two pentagons, the four remaining side squares, the pyramid. *)
Definition j52Faces : list (list nat) :=
  [ [5; 6; 7; 8; 9]; [4; 3; 2; 1; 0];
    [1; 2; 7; 6]; [2; 3; 8; 7]; [3; 4; 9; 8]; [4; 0; 5; 9];
    [0; 1; 10]; [1; 6; 10]; [6; 5; 10]; [5; 0; 10] ].

Definition j52Caps : list (list nat * list nat * list nat) :=
  [ ([10], [0; 1; 6; 5], [6; 7; 8; 9]) ].

Definition j52 : Polyhedron := mkPolyhedron j52Vertices j52Faces j52Caps.

Definition j52Cap : Cap := nth 0 (caps j52) (mkCap [] [] [] [] []).

(** The side square [1 2 7 6], next to the pyramid, and [2 3 8 7], away
    from it. *)
Definition j52NearSquare : Face := nth 2 (faces j52) nullFace.
Definition j52FarSquare : Face := nth 3 (faces j52) nullFace.

Definition augmentedPentagonalPrism : CompositeData :=
  {| source := PrismSource 5; augmented := 1; diminished := 0; gyrated := 0 |}.

Definition j52Forme : Forme CompositeData :=
  {| variant := AugmentedPrismForme;
     specs := augmentedPentagonalPrism;
     geom := j52 |}.

(** *** A geometry kernel for the examples: the normal of the first three
        points, and opposition up to the precision. *)

Definition add (a b : Vec3D) : Vec3D :=
  {| vx := vx a + vx b; vy := vy a + vy b; vz := vz a + vz b |}%float.

Definition normalOf (pts : list Vec3D) : Vec3D :=
  match pts with
  | a :: b :: c :: _ => getNormalized (cross (sub b a) (sub c a))
  | _ => {| vx := 0; vy := 0; vz := 0 |}%float
  end.

Definition opposite (a b : Vec3D) : bool :=
  (magnitude (add a b) <? PRECISION)%float.

End Solids.

Module Catalog.
Import OperationPairs PrismOps.

(** *** A fragment of the Capstone catalog: the square pyramid family *)

Definition capstone (b : Z) (t : CapstoneType) (e : option Elongation)
           (c : Z) : Capstone :=
  {| base := b; type := t; elongation := e; count := c;
     gyrate := None; twist := None |}.

Definition squarePyramid := capstone 4 Primary None 1.
Definition elongatedSquarePyramid := capstone 4 Primary (Some Prism) 1.
Definition gyroelongatedSquarePyramid := capstone 4 Primary (Some Antiprism) 1.
Definition squareBipyramid := capstone 4 Primary None 2.
Definition elongatedSquareBipyramid := capstone 4 Primary (Some Prism) 2.
Definition gyroelongatedSquareBipyramid :=
  capstone 4 Primary (Some Antiprism) 2.
Definition cube := capstone 4 Primary (Some Prism) 0.
Definition squareAntiprism := capstone 4 Primary (Some Antiprism) 0.

Definition table : list Capstone :=
  [ cube; squareAntiprism; squarePyramid; elongatedSquarePyramid;
    gyroelongatedSquarePyramid; squareBipyramid; elongatedSquareBipyramid;
    gyroelongatedSquareBipyramid ].

(** Modelled from the spec: one reading of the predicates' names over the
    data, used for the concrete graphs only. *)
Definition predicates : CapstonePredicates :=
  {| isPrismatic := fun s => (count s =? 0)%Z;
     isPrism := fun s =>
       (count s =? 0)%Z && bool_decide (elongation s = Some Prism);
     isDigonal := fun s => (base s =? 2)%Z;
     isTriangular := fun s => (base s =? 3)%Z;
     isPrimary := fun s => bool_decide (type s = Primary);
     isSecondary := fun s => bool_decide (type s = Secondary);
     isMono := fun s => (count s =? 1)%Z;
     isBi := fun s => (count s =? 2)%Z;
     isGyro := fun s => bool_decide (gyrate s = Some Gyro) |}.

Definition capstoneName (s : Capstone) : string :=
  let prefix :=
    match elongation s with
    | None => ""
    | Some Prism => "elongated "
    | Some Antiprism => "gyroelongated "
    end in
  let shape :=
    match count s with
    | 0%Z => "prism"
    | 1%Z => "pyramid"
    | _ => "bipyramid"
    end in
  (prefix ++ "square " ++ shape)%string.

(** *** A symbolic geometry provider: a geometry is known by the specs
        it was fetched for, a forme by its specs; poses and vertex lists
        carry nothing. *)

Definition createForme (s : Capstone) (_ : Capstone) : result Capstone := Ok s.
Definition getGeometry (s : Capstone) : result Capstone := Ok s.
Definition alignPolyhedron (g : Capstone) (_ _ : unit) : result Capstone := Ok g.
Definition withVertices (g : Capstone) (_ : unit) : result Capstone := Ok g.
Definition getCapstonePose (_ : Capstone) (_ : option Twist) : result unit :=
  Ok ().
Definition doPrismTransform (_ _ : Capstone) (_ : option Twist)
  : result unit := Ok ().

Definition squareElongatePair : @OpPairInput Capstone Capstone unit unit :=
  PrismOps.elongatePair table predicates getCapstonePose doPrismTransform.

Definition squareGyroelongPyramid : @OpPairInput Capstone Capstone unit unit :=
  PrismOps.gyroelongPyramid table predicates getCapstonePose doPrismTransform.

Definition squareElongate :=
  PrismOps.elongate (Geom := Capstone) table predicates capstoneName
    getCapstonePose doPrismTransform id id (fun _ => ()) createForme
    getGeometry alignPolyhedron withVertices.

Definition squareShorten :=
  PrismOps.shorten (Geom := Capstone) table predicates capstoneName
    getCapstonePose doPrismTransform id id (fun _ => ()) createForme
    getGeometry alignPolyhedron withVertices.

(** The four sub-operations [shorten] combines, in order. *)
Definition rightOf (op : @OpPairInput Capstone Capstone unit unit) :=
  snd (makeOpPair equals capstoneName id id (fun _ : Capstone => ())
         createForme getGeometry alignPolyhedron withVertices op).

Definition shortenElongated := rightOf squareElongatePair.
Definition shortenGyroelongatedPyramid := rightOf squareGyroelongPyramid.
Definition shortenGyroelongatedCupola :=
  rightOf (PrismOps.gyroelongCupola table predicates getCapstonePose
             doPrismTransform).
Definition shortenGyroelongatedBicupola :=
  rightOf (PrismOps.gyroelongBicupola table predicates getCapstonePose
             doPrismTransform).

Definition shortenParts :=
  [ shortenElongated; shortenGyroelongatedPyramid;
    shortenGyroelongatedCupola; shortenGyroelongatedBicupola ].

(** *** A graph with two entries on the same left specs *)

Definition forkedPair : @OpPairInput Capstone Capstone unit unit :=
  {| graph :=
       [ {| left := squarePyramid; right := elongatedSquarePyramid;
            options := None |};
         {| left := squarePyramid; right := gyroelongatedSquarePyramid;
            options := None |} ];
     middle := inl SRight;
     getPose := fun forme _ => getCapstonePose forme None;
     toLeft := None;
     toRight := None |}.

End Catalog.

Module LegacySolids.
Import LinAlg Augment.

(** A face of the legacy mesh from the dihedral angles of its edges, in
    order; [edge i] counts cyclically. *)
Definition faceOfAngles (angles : list float) : Face :=
  let es := map Build_Edge angles in
  {| numSides := length es;
     edges := es;
     edge := fun i =>
       nth (Z.to_nat (i mod Z.of_nat (length es))) es (Build_Edge 0) |}.

Definition polyhedronOfFaces (fs : list Face) : Polyhedron :=
  {| getFaces := fs;
     faceWithNumSides := fun n =>
       List.find (fun f => numSides f =? n) fs |}.

(** The pentagonal pyramid (J2): the base meets each side at
    [atan (h / r)], about 37.38 degrees, and two sides meet at
    [acos (- sqrt 5 / 3)], about 138.19 degrees. *)
Definition baseToSide : float := 0x1.4e01e2d74e77dp-1%float.
Definition sideToSide : float := 0x1.34b7fe03052e1p+1%float.

Definition pentagonalPyramidBase : Face :=
  faceOfAngles [baseToSide; baseToSide; baseToSide; baseToSide; baseToSide].

Definition pentagonalPyramid : Polyhedron :=
  polyhedronOfFaces
    (pentagonalPyramidBase
     :: replicate 5 (faceOfAngles [baseToSide; sideToSide; sideToSide])).

(** The regular tetrahedron: all edges at [acos (1 / 3)]. *)
Definition tetrahedral : float := 0x1.3b2028082e8d4p+0%float.

Definition tetrahedron : Polyhedron :=
  polyhedronOfFaces (replicate 4 (faceOfAngles [tetrahedral; tetrahedral; tetrahedral])).

(** The geometry provider, on the two names used here. *)
Definition get (name : string) : Polyhedron :=
  if String.eqb name "pentagonal-pyramid" then pentagonalPyramid
  else if String.eqb name "tetrahedron" then tetrahedron
  else polyhedronOfFaces [].

(** Two nearly parallel unit normals, half a thousandth of a radian
    apart, and a base vertex and centre in the base plane. *)
Definition undersideNormal : Vec3D := {| vx := 0; vy := 0; vz := 1 |}%float.
Definition tiltedNormal : Vec3D :=
  getNormalized {| vx := 0; vy := 0x1.0624dd2f1a9fcp-11; vz := 1 |}%float.
Definition baseV0 : Vec3D := {| vx := 1; vy := 0; vz := 0 |}%float.
Definition baseCenter : Vec3D := {| vx := 0; vy := 0; vz := 0 |}%float.

End LegacySolids.

(* ===================================================================== *)
(** ** cutPasteUtils.ts: combining cut-and-paste operations, cap options *)
(* ===================================================================== *)

Module CutPasteOps.
Import Polyhedra.

(** [Face.inSet(faces)]: some face of the list equals this one. *)
Definition inSet (face : Face) (fs : list Face) : bool :=
  existsb (fun g => faceEquals face g) fs.

Section Combine.
Context {Specs Forme Opts Result : Type}.
Variable formeSpecs : Forme -> Specs.
(** What the template [${specs.name}] renders in the error message. *)
Variable describe : Specs -> string.

(** [type CutPasteOpArgs]: the three methods [combineOps] reads. *)
Record CutPasteOpArgs := {
  apply : Forme -> Opts -> result Result;
  canApplyTo : Specs -> bool;
  getResult : Forme -> Opts -> result Specs;
}.

Definition getOp (ops : list CutPasteOpArgs) (specs : Specs)
  : result CutPasteOpArgs :=
  match List.find (fun op => canApplyTo op specs) ops with
  | Some entry => Ok entry
  | None =>
      Throw (External ("Could not apply any operations to "
                       ++ describe specs)%string)
  end.

Definition combineOps (ops : list CutPasteOpArgs) : CutPasteOpArgs :=
  {| canApplyTo := fun specs => existsb (fun op => canApplyTo op specs) ops;
     apply := fun forme options =>
       let* op := getOp ops (formeSpecs forme) in apply op forme options;
     getResult := fun forme options =>
       let* op := getOp ops (formeSpecs forme) in getResult op forme options
  |}.
End Combine.

(** A forme as [getCaps] tells them apart: a [CapstoneForme], with its
    base caps, or any other forme. *)
Inductive AnyForme :=
| CapstoneFormeOf (geom : Polyhedron) (baseCaps : list Cap)
| OtherForme (geom : Polyhedron).

Definition formeGeom (forme : AnyForme) : Polyhedron :=
  match forme with
  | CapstoneFormeOf geom _ => geom
  | OtherForme geom => geom
  end.

Definition getCaps (forme : AnyForme) : list Cap :=
  match forme with
  | CapstoneFormeOf _ baseCaps => baseCaps
  | OtherForme geom => caps geom
  end.

(** [capOptionArgs.allOptionCombos]: one option [{ cap }] per cap. *)
Definition allOptionCombos (forme : AnyForme) : list Cap := getCaps forme.

Inductive SelectionState := Selected | Selectable.

(** [capOptionArgs.faceSelectionStates]; the option's [cap] is [None] when
    it is missing or not a [Cap], and a state [None] is [undefined]. *)
Definition faceSelectionStates (forme : AnyForme) (cap : option Cap)
  : list (option SelectionState) :=
  let allCapFaces := flat_map capFaces (getCaps forme) in
  map (fun face =>
         if match cap with
            | Some c => inSet face (capFaces c)
            | None => false
            end
         then Some Selected
         else if inSet face allCapFaces then Some Selectable
         else None)
      (faces (formeGeom forme)).

End CutPasteOps.

(* ===================================================================== *)
(** ** FaceLike.ts and linAlg.js: validity and planarity *)
(* ===================================================================== *)

Module FaceLikeChecks.
Import LinAlg Polyhedra.

Section Lengths.
(** [Edge.length], of the class [Edge] that is not among the sources. *)
Variable edgeLength : Edge -> float.

Definition isLong (e : Edge) : bool := (PRECISION <? edgeLength e)%float.

(** [edges.filter(edge => edge.length() > PRECISION).length] *)
Definition numUniqueSides (f : FaceLike) : nat :=
  length (List.filter isLong (edges f)).

(** [every(edges, edge => edge.length() > PRECISION)] *)
Definition isValid (f : FaceLike) : bool := forallb isLong (edges f).

(** [edges[0].length()]; there is no first edge to ask in an empty list. *)
Definition sideLength (f : FaceLike) : result float :=
  match edges f with
  | e :: _ => Ok (edgeLength e)
  | [] => Throw TypeError
  end.
End Lengths.

Section Planes.
(** [new Plane(new Triangle3D(a, b, c)).getDistanceToPoint(v)], of the
    vector library. *)
Variable planeDistance : Vec3D -> Vec3D -> Vec3D -> Vec3D -> float.

(** [isPlanar] of [linAlg.js]: with fewer than three points it throws;
    otherwise the plane is the one of the first three ([_.take(points, 3)]). *)
Definition isPlanar (points : list Vec3D) : result bool :=
  match points with
  | a :: b :: c :: _ =>
      Ok (forallb (fun v => (planeDistance a b c v <? PRECISION)%float)
                  points)
  | _ => Throw (External "Need at least three points")
  end.
End Planes.

End FaceLikeChecks.

(* ===================================================================== *)
(** ** CompositeForme.ts: the remaining face queries *)
(* ===================================================================== *)

Module CompositeFaces.
Import LinAlg Polyhedra Specs CompositeForme CutPasteOps.

(** [array.filter] over a callback that may throw. *)
Fixpoint filterResult {A} (p : A -> result bool) (l : list A)
  : result (list A) :=
  match l with
  | [] => Ok []
  | a :: l' =>
      let* keep := p a in
      let* rest := filterResult p l' in
      Ok (if keep then a :: rest else rest)
  end.

Section Faces.
Context {Composite : Type} `{CompositeSpecs Composite}.
Variable getNormal : list Vec3D -> Vec3D.
Variable isInverse : Vec3D -> Vec3D -> bool.
(** [specs.sourcePrism().isTriangular()] and [.baseSides()] *)
Variable sourcePrismIsTriangular : Composite -> bool.
Variable sourcePrismBaseSides : Composite -> nat.

Abbreviation F := (Forme Composite).

(** [AugmentedClassicalForme.mainFaces] *)
Definition mainFaces (f : F) : result (list Face) :=
  filterResult (isMainFace f) (faces (geom f)).

(** [isMinorFace]: [isSourceFace(face) && !isMainFace(face)] *)
Definition isMinorFace (f : F) (face : Face) : result bool :=
  let* source := isSourceFace f face in
  if source then
    let* main := isMainFace f face in Ok (negb main)
  else Ok false.

Definition minorFaces (f : F) : result (list Face) :=
  filterResult (isMinorFace f) (faces (geom f)).

(** [isCapTop]: never in a regular source, otherwise a face whose vertices
    are all inner vertices of caps *)
Definition isCapTop (f : F) (face : Face) : result bool :=
  if sourceClassicalIsRegular (specs f) then Ok false
  else
    every (fun v =>
             let* inner := capInnerVertIndices f in
             Ok (bool_decide (index v ∈ inner)))
          (vertices face).

Definition capTops (f : F) : result (list Face) :=
  filterResult (isCapTop f) (faces (geom f)).

(** The inner loop of [baseFaces]: the first face opposite [face1]. *)
Definition firstInverse (face1 : Face) (candidates : list Face)
  : option Face :=
  List.find (fun face2 : Face =>
               isInverse (normal getNormal face1) (normal getNormal face2))
            candidates.

(** The two nested loops: the first pair of opposite faces. *)
Fixpoint firstInversePair (outer all : list Face) : option (Face * Face) :=
  match outer with
  | [] => None
  | face1 :: rest =>
      match firstInverse face1 all with
      | Some face2 => Some (face1, face2)
      | None => firstInversePair rest all
      end
  end.

(** [AugmentedPrismForme.baseFaces] *)
Definition baseFaces (f : F) : result (list Face) :=
  if negb (sourcePrismIsTriangular (specs f)) then
    Ok (List.filter (fun face : Face =>
                       numSides face =? sourcePrismBaseSides (specs f))
                    (faces (geom f)))
  else
    match firstInversePair (faces (geom f)) (faces (geom f)) with
    | Some (face1, face2) => Ok [face1; face2]
    | None =>
        Throw (External ("Could not find base faces for "
                         ++ name (specs f))%string)
    end.

Definition isBaseFace (f : F) (face : Face) : result bool :=
  let* bases := baseFaces f in Ok (inSet face bases).

End Faces.

End CompositeFaces.

(* ===================================================================== *)
(** ** augment.js: the choice of an augmentee and its alignment *)
(* ===================================================================== *)

Module AugmentChoice.
Import Augment.

(** [defaultAugmentees], by number of sides *)
Definition defaultAugmentees (n : nat) : option string :=
  match n with
  | 3 => Some "Y3"
  | 4 => Some "Y4"
  | 5 => Some "Y5"
  | 6 => Some "U3"
  | 8 => Some "U4"
  | 10 => Some "U5"
  | _ => None
  end.




(** [augmentTypes], by prefix letter *)
Definition augmentTypes (prefix : string) : option string :=
  if String.eqb prefix "Y" then Some "pyramid"
  else if String.eqb prefix "U" then Some "cupola"
  else if String.eqb prefix "R" then Some "rotunda"
  else if String.eqb prefix "P" then Some "prism"
  else if String.eqb prefix "A" then Some "antiprism"
  else None.

(** The [augmentees] table, by type and index as the keys are written. *)
Definition augmentees (type index : string) : option string :=
  if String.eqb type "pyramid" then
    if String.eqb index "3" then Some "tetrahedron"
    else if String.eqb index "4" then Some "square-pyramid"
    else if String.eqb index "5" then Some "pentagonal-pyramid"
    else None
  else if String.eqb type "cupola" then
    if String.eqb index "2" then Some "triangular-prism"
    else if String.eqb index "3" then Some "triangular-cupola"
    else if String.eqb index "4" then Some "square-cupola"
    else if String.eqb index "5" then Some "pentagonal-cupola"
    else None
  else if String.eqb type "rotunda" then
    if String.eqb index "5" then Some "pentagonal-rotunda" else None
  else if String.eqb type "prism" then
    if String.eqb index "3" then Some "triangular-prism"
    else if String.eqb index "4" then Some "cube"
    else if String.eqb index "5" then Some "pentagonal-prism"
    else if String.eqb index "6" then Some "hexagonal-prism"
    else if String.eqb index "8" then Some "octagonal-prism"
    else if String.eqb index "10" then Some "decagonal-prism"
    else None
  else if String.eqb type "antiprism" then
    if String.eqb index "3" then Some "octahedron"
    else if String.eqb index "4" then Some "square-antiprism"
    else if String.eqb index "5" then Some "pentagonal-antiprism"
    else if String.eqb index "6" then Some "hexagonal-antiprism"
    else if String.eqb index "8" then Some "octagonal-antiprism"
    else if String.eqb index "10" then Some "decagonal-antiprism"
    else None
  else None.

(** How [doAugment] reads [using]: [augmentData[augmentTypes[using[0]]]
    [using.substring(1)]]. An unknown prefix leaves no table to index (a
    [TypeError]); an unknown index gives [undefined] ([Ok None]). *)
Definition augmenteeOf (code : string) : result (option string) :=
  match code with
  | String c index =>
      match augmentTypes (String c "") with
      | Some type => Ok (augmentees type index)
      | None => Throw TypeError
      end
  | EmptyString => Throw TypeError
  end.

(** The names [getPossibleAugmentees] fetches for a face of [n] sides. *)
Definition possibleNames (n : nat) : list string :=
  omap id [pyramid n; half n ≫= cupola; half n ≫= rotunda].




(** [_.xor(a, b)]: the values in exactly one of the two arrays, once. *)
Definition xor {A} `{EqDecision A} (a b : list A) : list A :=
  remove_dups (list_difference a b ++ list_difference b a).

(** [setEquals] *)
Definition setEquals {A} `{EqDecision A} (a b : list A) : bool :=
  length (xor a b) =? 0.

Inductive BaseType :=
| Cupola | PrismBase | Pyramid | Antiprism | Rotunda
| Rhombicosidodecahedron | Truncated.

#[global] Instance BaseType_eq_dec : EqDecision BaseType.
Proof. solve_decision. Defined.

Definition baseTypeName (t : BaseType) : string :=
  match t with
  | Cupola => "cupola"
  | PrismBase => "prism"
  | Pyramid => "pyramid"
  | Antiprism => "antiprism"
  | Rotunda => "rotunda"
  | Rhombicosidodecahedron => "rhombicosidodecahedron"
  | Truncated => "truncated"
  end.

(** [isCupolaRotunda] *)
Definition isCupolaRotunda (baseType : string) (augmentType : option string)
  : bool :=
  setEquals [Some "cupola"%string; Some "rotunda"%string]
            [Some baseType; augmentType].

Section Alignment.
(** The legacy mesh queries the alignment reads: the faces around a face
    (in order), object identity of faces, the position of a face in a
    list, cyclic indexing, and the types of the polyhedron's peaks. *)
Variable adjacentFaces : Face -> list Face.
Variable directedAdjacentFaces : Face -> list Face.
Variable sameFace : Face -> Face -> bool.
Variable indexIn : Face -> list Face -> Z.
Variable getCyclic : list Face -> Z -> option Face.
Variable peakTypes : Polyhedron -> list string.

(** [_.intersection(array)] of one array: its distinct elements. *)
Fixpoint distinct (l : list Face) : list Face :=
  match l with
  | [] => []
  | a :: l' => a :: List.filter (fun b => negb (sameFace a b)) (distinct l')
  end.

Definition getBaseType (base : Face) : BaseType :=
  let adjacent := adjacentFaces base in
  let adjacentFaceCounts := remove_dups (map numSides adjacent) in
  if setEquals adjacentFaceCounts [3; 4] then Cupola
  else if setEquals adjacentFaceCounts [4] then PrismBase
  else if setEquals adjacentFaceCounts [3] then
    if 0 <? length (distinct adjacent) then Pyramid else Antiprism
  else if setEquals adjacentFaceCounts [3; 5] then Rotunda
  else if setEquals adjacentFaceCounts [4; 5] then Rhombicosidodecahedron
  else Truncated.

(** [array[0]] and a property read on what may be [undefined]. *)
Definition sidesOf (face : option Face) : result nat :=
  match face with
  | Some f => Ok (numSides f)
  | None => Throw TypeError
  end.

Definition getOppositePrismFace (base : Face) : result (option Face) :=
  match head (directedAdjacentFaces base) with
  | None => Throw TypeError
  | Some square =>
      let squareAdjFaces := directedAdjacentFaces square in
      let i := indexIn base squareAdjFaces in
      Ok (getCyclic squareAdjFaces (i + 2))
  end.

Definition isOrthoString (gyrate : option string) : bool :=
  bool_decide (gyrate = Some "ortho"%string).

Definition isAligned (polyhedron : Polyhedron) (base underside : Face)
           (gyrate augmentType : option string) : result bool :=
  if bool_decide (augmentType ∈ [Some "pyramid"; Some "prism";
                                 Some "antiprism"]%string)
  then Ok true
  else
    let baseType := getBaseType base in
    if bool_decide (baseType = Pyramid) || bool_decide (baseType = Antiprism)
    then Ok true
    else if bool_decide (baseType = PrismBase)
            && (length (peakTypes polyhedron) =? 0)
    then Ok true
    else if negb (bool_decide (baseType = Truncated))
            && bool_decide (gyrate = None)
    then Throw (External ("Must define 'gyrate' for augmenting "
                          ++ baseTypeName baseType ++ " ")%string)
    else
      let* adjFace :=
        if bool_decide (baseType = PrismBase) then getOppositePrismFace base
        else Ok (head (directedAdjacentFaces base)) in
      let alignedFace := getCyclic (directedAdjacentFaces underside) (-1) in
      if bool_decide (baseType = Rhombicosidodecahedron) then
        let* a := sidesOf adjFace in
        let* b := sidesOf alignedFace in
        let isOrtho := Bool.eqb (negb (a =? 4)) (negb (b =? 4)) in
        Ok (Bool.eqb isOrtho (isOrthoString gyrate))
      else
        let* a := sidesOf adjFace in
        let* b := sidesOf alignedFace in
        let isOrtho := Bool.eqb (negb (a =? 3)) (negb (b =? 3)) in
        if bool_decide (baseType = Truncated) then Ok (negb isOrtho)
        else
          match head (peakTypes polyhedron) with
          | None => Throw TypeError
          | Some peakType =>
              if isCupolaRotunda peakType augmentType
              then Ok (negb (Bool.eqb isOrtho (isOrthoString gyrate)))
              else Ok (Bool.eqb isOrtho (isOrthoString gyrate))
          end.

(** [const offset = baseIsAligned ? 0 : 1] in [doAugment] *)
Definition alignOffset (polyhedron : Polyhedron) (base underside : Face)
           (gyrate augmentType : option string) : result Z :=
  let* baseIsAligned := isAligned polyhedron base underside gyrate augmentType in
  Ok (if baseIsAligned then 0 else 1)%Z.

End Alignment.

Section Hit.
(** [Polyhedron.get], [polyhedron.hitFace(point)] and [face.index]. *)
Context {Point : Type}.
Variable get : string -> Polyhedron.
Variable hitFace : Polyhedron -> Point -> Face.
Variable index : Face -> nat.

(** [getAugmentFace]: [graph[hitFace.index] ? hitFace : undefined] *)
Definition getAugmentFace (polyhedron : Polyhedron) (graph : list bool)
           (point : Point) : option Face :=
  let hit := hitFace polyhedron point in
  if default false (graph !! index hit) then Some hit else None.

(** [augment.getApplyArgs]: [{ face }] as [Some face], [{}] as [None]. *)
Definition getApplyArgs (polyhedron : Polyhedron) (hitPnt : Point)
  : result (option Face) :=
  let* augmentInfo := getAugmentGraph get polyhedron in
  Ok (getAugmentFace polyhedron augmentInfo hitPnt).

End Hit.

End AugmentChoice.

(* ===================================================================== *)
(** ** A catalog fragment with bicupolae *)
(* ===================================================================== *)

Module BicupolaCatalog.
Import OperationPairs PrismOps Catalog.

Definition bicupola (g : Gyrate) (e : option Elongation) (t : option Twist)
  : Capstone :=
  {| base := 4; type := Secondary; elongation := e; count := 2;
     gyrate := Some g; twist := t |}.

Definition squareOrthobicupola := bicupola Ortho None None.
Definition squareGyrobicupola := bicupola Gyro None None.

Definition bicupolaTable : list Capstone :=
  [ squareOrthobicupola; squareGyrobicupola;
    bicupola Ortho (Some Prism) None; bicupola Gyro (Some Prism) None ].

Definition squareGyroelongBicupola : @OpPairInput Capstone Capstone unit unit :=
  PrismOps.gyroelongBicupola bicupolaTable predicates getCapstonePose
    doPrismTransform.

End BicupolaCatalog.

(* ===================================================================== *)
(** ** One more concrete solid *)
(* ===================================================================== *)

Module MoreSolids.
Import LinAlg Polyhedra Specs CompositeForme Solids.

(** *** The augmented truncated tetrahedron (J65): the truncated
        tetrahedron on the even sign changes of the permutations of
        [(1, 1, 3)], with a triangular cupola on the hexagon [6 2 0 1 4 7]. *)

Definition j65Vertices : list Vertex :=
  [ mkVertex 0 3 1 1;
    mkVertex 1 3 (-1) (-1);
    mkVertex 2 1 3 1;
    mkVertex 3 1 1 3;
    mkVertex 4 1 (-1) (-3);
    mkVertex 5 1 (-3) (-1);
    mkVertex 6 (-1) 3 (-1);
    mkVertex 7 (-1) 1 (-3);
    mkVertex 8 (-1) (-1) 3;
    mkVertex 9 (-1) (-3) 1;
    mkVertex 10 (-3) 1 (-1);
    mkVertex 11 (-3) (-1) 1;
    mkVertex 12 (0x1.aaaaaaaaaaaacp+0) (0x1.d555555555556p+1)
             (-0x1.aaaaaaaaaaaaap+0);
    mkVertex 13 (0x1.d555555555556p+1) (0x1.aaaaaaaaaaaacp+0)
             (-0x1.aaaaaaaaaaaaap+0);
    mkVertex 14 (0x1.aaaaaaaaaaaacp+0) (0x1.aaaaaaaaaaaaap+0)
             (-0x1.d555555555556p+1) ]%float.

(** The faces left of the truncated tetrahedron (four triangles, three
    hexagons), then the cupola: three squares, three triangles and its top
    triangle. *)
Definition j65Faces : list (list nat) :=
  [ [3; 0; 2]; [5; 1; 0; 3; 8; 9]; [4; 1; 5]; [8; 3; 2; 6; 10; 11];
    [10; 6; 7]; [9; 8; 11]; [10; 7; 4; 5; 9; 11];
    [2; 0; 13; 12]; [1; 4; 14; 13]; [7; 6; 12; 14];
    [6; 2; 12]; [0; 1; 13]; [4; 7; 14]; [12; 13; 14] ].

Definition j65Caps : list (list nat * list nat * list nat) :=
  [ ([12; 13; 14], [6; 2; 0; 1; 4; 7], [7; 8; 9; 10; 11; 12; 13]) ].

Definition j65 : Polyhedron := mkPolyhedron j65Vertices j65Faces j65Caps.

Definition augmentedTruncatedTetrahedron : CompositeData :=
  {| source := TruncatedTetrahedron; augmented := 1; diminished := 0;
     gyrated := 0 |}.

Definition j65Forme : Forme CompositeData :=
  {| variant := AugmentedClassicalForme;
     specs := augmentedTruncatedTetrahedron;
     geom := j65 |}.

(** The top triangle of the cupola, a hexagon and a triangle of the source. *)
Definition j65Top : Face := nth 13 (faces j65) nullFace.
Definition j65Hexagon : Face := nth 1 (faces j65) nullFace.
Definition j65Triangle : Face := nth 0 (faces j65) nullFace.

(** The side count of the source prism of a Composite carrier. *)
Definition prismSides (s : CompositeData) : nat :=
  match source s with PrismSource n => n | _ => 0 end.

Definition prismIsTriangular (s : CompositeData) : bool := prismSides s =? 3.

End MoreSolids.

(* ===================================================================== *)
(** * Theorems *)
(* ===================================================================== *)

Module CutPasteFacts.
Import CutPasteUtils.

(** C10. On a count [c] of [0..3]: [inc] throws exactly at [3] and
    otherwise returns [c + 1]; [dec] throws exactly at [0] and otherwise
    returns [c - 1]; [dec] undoes [inc] below [3], [inc] undoes [dec]
    above [0]; whatever either returns is again a count of [0..3]. *)
Theorem count_inc_dec (c : Count) (Hc : isCount c) :
  (throws (inc c) <-> c = 3%Z) /\
  (c <> 3%Z -> inc c = Ok (c + 1)%Z) /\
  (throws (dec c) <-> c = 0%Z) /\
  (c <> 0%Z -> dec c = Ok (c - 1)%Z) /\
  ((c < 3)%Z -> (let* c' := inc c in dec c') = Ok c) /\
  ((c > 0)%Z -> (let* c' := dec c in inc c') = Ok c) /\
  (forall c', inc c = Ok c' \/ dec c = Ok c' -> isCount c').
Proof.
  unfold isCount, inc, dec, throws in *.
  repeat split.
  - intros [e He]. destruct (Z.eqb_spec c 3); [done | discriminate].
  - intros ->. eexists. reflexivity.
  - intros Hne. destruct (Z.eqb_spec c 3); [done | reflexivity].
  - intros [e He]. destruct (Z.eqb_spec c 0); [done | discriminate].
  - intros ->. eexists. reflexivity.
  - intros Hne. destruct (Z.eqb_spec c 0); [done | reflexivity].
  - intros Hlt. destruct (Z.eqb_spec c 3); [lia |]. simpl.
    destruct (Z.eqb_spec (c + 1) 0); [lia |]. f_equal. lia.
  - intros Hgt. destruct (Z.eqb_spec c 0); [lia |]. simpl.
    destruct (Z.eqb_spec (c - 1) 3); [lia |]. f_equal. lia.
  - destruct H as [H | H].
    + destruct (Z.eqb_spec c 3); [discriminate |]. injection H as <-. lia.
    + destruct (Z.eqb_spec c 0); [discriminate |]. injection H as <-. lia.
  - destruct H as [H | H].
    + destruct (Z.eqb_spec c 3); [discriminate |]. injection H as <-. lia.
    + destruct (Z.eqb_spec c 0); [discriminate |]. injection H as <-. lia.
Qed.

Lemma count_inc_dec_witness :
  isCount 2%Z /\
  (let* c' := inc 2%Z in dec c') = Ok 2%Z /\
  (let* c' := dec 2%Z in inc c') = Ok 2%Z.
Proof.
  assert (H2 : isCount 2%Z) by (unfold isCount; lia).
  split; [exact H2 |].
  destruct (count_inc_dec 2%Z H2) as (_ & _ & _ & _ & Hid & Hdi & _).
  split; [apply Hid | apply Hdi]; lia.
Defined.

End CutPasteFacts.

(* --------------------------------------------------------------------- *)
(** ** Facts on the JavaScript helpers *)
(* --------------------------------------------------------------------- *)

Module JsFacts.

(** A callback that never throws makes [every] the plain conjunction. *)
Lemma every_pure {A} (p : A -> result bool) (q : A -> bool) (l : list A) :
  (forall a, In a l -> p a = Ok (q a)) ->
  every p l = Ok (forallb q l).
Proof.
  induction l as [| a l IH]; intros Hp; simpl; [reflexivity |].
  rewrite (Hp a (or_introl eq_refl)). simpl.
  destruct (q a); [| reflexivity].
  apply IH. intros b Hb. apply Hp. now right.
Qed.

(** [isMatch] is containment of the source's fields. *)
Lemma isMatch_spec (obj src : object) :
  isMatch obj src = true <->
  forall k v, src !! k = Some v -> obj !! k = Some v.
Proof.
  unfold isMatch. rewrite bool_decide_eq_true. reflexivity.
Qed.

Lemma isMatch_refl (obj : object) : isMatch obj obj = true.
Proof. apply isMatch_spec. auto. Qed.

Lemma isMatch_empty (obj : object) : isMatch obj ∅ = true.
Proof. apply isMatch_spec. intros k v Hk. now rewrite lookup_empty in Hk. Qed.

Lemma forallb_rotate {A} (q : A -> bool) (k : nat) (l : list A) :
  forallb q (rotate k l) = forallb q l.
Proof.
  unfold rotate. generalize (k `mod` length l) as n. intros n.
  rewrite forallb_app, andb_comm, <- forallb_app.
  now rewrite take_drop.
Qed.

End JsFacts.

(* --------------------------------------------------------------------- *)
(** ** The Composite formes *)
(* --------------------------------------------------------------------- *)

Module FormeFacts.
Import LinAlg Polyhedra Specs CompositeForme JsFacts.

Section Generic.
Context {Composite : Type} `{CompositeSpecs Composite}.
Variable getNormal : list Vec3D -> Vec3D.
Variable isInverse : Vec3D -> Vec3D -> bool.

Abbreviation F := (Forme Composite).

(** Once the forme's caps hold one defined cap, they hold no
    [undefined]. *)
Lemma formeCaps_defined (f : F) (cap : Cap) :
  In (Some cap) (formeCaps f) ->
  forall c, In c (formeCaps f) -> exists cap', c = Some cap'.
Proof.
  unfold formeCaps. intros Hin c Hc.
  assert (Hmap : forall l : list Cap, In c (map Some l) -> exists cap', c = Some cap').
  { intros l Hl. apply in_map_iff in Hl as (cap' & <- & _). eauto. }
  destruct (variant f); eauto.
  destruct (_ && _); eauto.
  destruct Hin as [Hin | []]. destruct Hc as [<- | []]. eauto.
Qed.

Lemma innerVertIndices_defined (cs : list (option Cap)) :
  (forall c, In c cs -> exists cap, c = Some cap) ->
  exists l, innerVertIndices cs = Ok l.
Proof.
  induction cs as [| c cs IH]; intros Hall; simpl; [eauto |].
  destruct (Hall c (or_introl eq_refl)) as [cap ->].
  destruct IH as [l ->]; [intros; apply Hall; now right |].
  simpl. eauto.
Qed.

Lemma isSourceFace_defined (f : F) (face : Face) (cap : Cap) :
  In (Some cap) (formeCaps f) ->
  exists b, isSourceFace f face = Ok b.
Proof.
  intros Hin. unfold isSourceFace, capInnerVertIndices.
  destruct (innerVertIndices_defined (formeCaps f)) as [l Hl].
  { eapply formeCaps_defined; eauto. }
  rewrite Hl. simpl.
  eexists. apply every_pure. intros v _. reflexivity.
Qed.

(** A face across a boundary edge of one of the forme's caps is not
    away from the caps. *)
Lemma awayFromCaps_adjacent (f : F) (face : Face) (cap : Cap) :
  In (Some cap) (formeCaps f) ->
  (exists g, In g (adjacentFaces (geom f) (boundary cap))
             /\ faceEquals g face = true) ->
  awayFromCaps f face = Ok false.
Proof.
  intros Hin (g & Hg & Heq). unfold awayFromCaps.
  rewrite (every_pure _
    (fun c => match c with
              | Some c' => forallb (fun g => negb (faceEquals g face))
                                   (adjacentFaces (geom f) (boundary c'))
              | None => true
              end)).
  - f_equal. apply not_true_is_false. intros Hall.
    rewrite forallb_forall in Hall. specialize (Hall _ Hin). simpl in Hall.
    rewrite forallb_forall in Hall. specialize (Hall _ Hg).
    now rewrite Heq in Hall.
  - intros c Hc. destruct (formeCaps_defined f cap Hin c Hc) as [c' ->].
    reflexivity.
Qed.

(** C1 (amended). In the augmented-prism and augmented-classical formes
    [canAugment] returns false on a face that lies across a boundary
    edge of one of the forme's caps. In the diminished and gyrate formes
    [canAugment] does not look at the caps: it is decided by the face's
    side count against the largest face (and, for a diminished solid,
    by the specs not being augmented and by the face being surrounded
    by pentagons). *)
Theorem canAugment_cap_boundary (f : F) (face : Face) (cap : Cap)
    (Hcap : In (Some cap) (formeCaps f))
    (Hadj : exists g, In g (adjacentFaces (geom f) (boundary cap))
                      /\ faceEquals g face = true) :
  (variant f = AugmentedPrismForme -> canAugment f face = Ok false) /\
  (variant f = AugmentedClassicalForme -> canAugment f face = Ok false) /\
  (variant f = DiminishedSolidForme ->
     canAugment f face
     = Ok (negb (isAugmented (specs f))
           && (isDiminishedFace f face
               || forallb (fun g : Face => numSides g =? 5)
                          (adjacentFaces (geom f) face)))) /\
  (variant f = GyrateSolidForme ->
     canAugment f face = Ok (isDiminishedFace f face)).
Proof.
  pose proof (awayFromCaps_adjacent f face cap Hcap Hadj) as Haway.
  unfold canAugment. repeat split; intros ->.
  - destruct (negb (isSideFace face)); [reflexivity | exact Haway].
  - unfold isMainFace.
    destruct (isSourceFace_defined f face cap Hcap) as [b ->]. simpl.
    destruct b; simpl; [| reflexivity].
    destruct (sourceClassicalIsRegular (specs f)); simpl.
    + exact Haway.
    + destruct (negb (numSides face =? 3)); simpl; [exact Haway | reflexivity].
  - destruct (isAugmented (specs f)); reflexivity.
  - reflexivity.
Qed.

(** C5. [alignment] is [undefined] when the forme has no alignment;
    when it has one and a single modification [m], it is "para" exactly
    when the site's normal is the inverse of [m]'s normal and "meta"
    otherwise. The augmented-prism forme has an alignment when its
    specs are mono and its source prism is secondary. *)
Theorem alignment_para_meta (f : F) (site : Base) :
  (hasAlignment f = false ->
     alignment getNormal isInverse f site = Ok None) /\
  (forall m,
     hasAlignment f = true -> modifications f = [Some m] ->
     let opposed :=
       isInverse (baseNormal getNormal site) (baseNormal getNormal m) in
     alignment getNormal isInverse f site
     = Ok (Some (if opposed then Para else Meta))
     /\ (alignment getNormal isInverse f site = Ok (Some Para)
         <-> opposed = true)
     /\ (alignment getNormal isInverse f site = Ok (Some Meta)
         <-> opposed = false)) /\
  (variant f = AugmentedPrismForme ->
     hasAlignment f
     = isMono (specs f) && sourcePrismIsSecondary (specs f)) /\
  (variant f = DiminishedSolidForme \/ variant f = GyrateSolidForme ->
     hasAlignment f = isMono (specs f)) /\
  (hasAlignment f = true -> length (modifications f) <> 1 ->
     alignment getNormal isInverse f site
     = Throw (ExpectedSingle (length (modifications f)))).
Proof.
  split; [| split; [| split; [| split]]].
  - intros Hno. unfold alignment. now rewrite Hno.
  - intros m Hhas Hmod opposed. subst opposed.
    unfold alignment. rewrite Hhas, Hmod. simpl.
    split; [reflexivity |].
    destruct (isInverse _ _); split; split;
      first [reflexivity | discriminate].
  - intros Hv. unfold hasAlignment. now rewrite Hv.
  - intros [Hv | Hv]; unfold hasAlignment; now rewrite Hv.
  - intros Hhas Hlen. unfold alignment. rewrite Hhas. simpl.
    destruct (modifications f) as [| m [| m' l]]; simpl in *;
      first [reflexivity | contradiction].
Qed.

(** C6. A cap is gyrate exactly when, on every edge of its boundary,
    the edge's own face and the face across it agree on being 4-sided;
    so the verdict does not depend on which boundary edge comes
    first. *)
Theorem isGyrate_edges_agree (p : Polyhedron) (cap : Cap) :
  (isGyrate p cap = true <->
   forall edge, In edge (edges (boundary cap)) ->
     (numSides (edgeFace p edge) = 4
      <-> numSides (edgeFace p (twin edge)) = 4)) /\
  (forall k, isGyrate p (relabelBoundary k cap) = isGyrate p cap).
Proof.
  split.
  - unfold isGyrate. rewrite forallb_forall.
    split; intros Hall edge Hin; specialize (Hall edge Hin); simpl in *.
    + apply eqb_prop in Hall.
      rewrite <- !Nat.eqb_eq. rewrite Hall. reflexivity.
    + rewrite <- !Nat.eqb_eq in Hall.
      destruct (numSides (edgeFace p edge) =? 4),
               (numSides (edgeFace p (twin edge)) =? 4);
        try reflexivity; exfalso.
      * destruct Hall as [Hall _]. discriminate (Hall eq_refl).
      * destruct Hall as [_ Hall]. discriminate (Hall eq_refl).
  - intros k. unfold isGyrate, relabelBoundary. simpl.
    apply forallb_rotate.
Qed.

(** C7. [create] builds the forme of the first family whose predicate
    holds of the specs, in the order augmented prism, augmented
    classical, diminished, gyrate, over the given specs and geometry;
    it throws exactly when none of the four predicates holds. *)
Theorem create_dispatch (s : Composite) (g : Polyhedron) :
  (throws (create s g) <->
     isAugmentedPrism s = false /\ isAugmentedClassical s = false
     /\ isDiminishedSolid s = false /\ isGyrateSolid s = false) /\
  (forall e, create s g = Throw e -> e = InvalidCompositeSpecs (name s)) /\
  (forall f, create s g = Ok f ->
     specs f = s /\ geom f = g /\
     match variant f with
     | AugmentedPrismForme => isAugmentedPrism s = true
     | AugmentedClassicalForme =>
         isAugmentedPrism s = false /\ isAugmentedClassical s = true
     | DiminishedSolidForme =>
         isAugmentedPrism s = false /\ isAugmentedClassical s = false
         /\ isDiminishedSolid s = true
     | GyrateSolidForme =>
         isAugmentedPrism s = false /\ isAugmentedClassical s = false
         /\ isDiminishedSolid s = false /\ isGyrateSolid s = true
     end).
Proof.
  unfold create, throws.
  destruct (isAugmentedPrism s) eqn:E1;
    [| destruct (isAugmentedClassical s) eqn:E2;
       [| destruct (isDiminishedSolid s) eqn:E3;
          [| destruct (isGyrateSolid s) eqn:E4]]].
  all: split;
    [ split;
      [ intros [e He]; try discriminate He; repeat split; reflexivity
      | intros (? & ? & ? & ?); try discriminate; eexists; reflexivity ]
    | split;
      [ intros e He; try discriminate He; now injection He as <-
      | intros f Hf; try discriminate Hf; injection Hf as <-; simpl;
        repeat split; first [reflexivity | assumption] ] ].
Qed.

End Generic.

End FormeFacts.

Module SolidFacts.
Import LinAlg Polyhedra Specs CompositeForme Solids FormeFacts.

(** Both example meshes have a consistent half-edge structure, and each
    cap boundary separates the cap's faces from the rest. *)
Lemma solids_well_formed :
  closedMesh j11 = true /\ capsBounded j11 = true /\
  closedMesh j52 = true /\ capsBounded j52 = true.
Proof. repeat split; vm_compute; reflexivity. Qed.

(** C1, as stated, fails on the diminished icosahedron: its pentagon lies
    across the boundary edge [6 -> 0] of the cap around vertex 2, and the
    diminished forme lets it be augmented (which restores the
    icosahedron). *)
Lemma canAugment_diminished_counterexample :
  create diminishedIcosahedron j11 = Ok j11Forme /\
  In (Some j11Cap2) (formeCaps j11Forme) /\
  In j11Pentagon (adjacentFaces j11 (boundary j11Cap2)) /\
  canAugment j11Forme j11Pentagon = Ok true.
Proof.
  split; [reflexivity |].
  split; [vm_compute; left; reflexivity |].
  split; [vm_compute; do 4 right; left; reflexivity |].
  vm_compute; reflexivity.
Qed.

Lemma canAugment_cap_boundary_witness :
  In (Some j52Cap) (formeCaps j52Forme) /\
  In j52NearSquare (adjacentFaces j52 (boundary j52Cap)) /\
  isSideFace j52NearSquare = true /\
  canAugment j52Forme j52NearSquare = Ok false.
Proof.
  assert (Hcap : In (Some j52Cap) (formeCaps j52Forme))
    by (vm_compute; left; reflexivity).
  assert (Hadj : In j52NearSquare (adjacentFaces j52 (boundary j52Cap)))
    by (vm_compute; right; left; reflexivity).
  split; [exact Hcap |]. split; [exact Hadj |]. split; [reflexivity |].
  refine (proj1 (canAugment_cap_boundary j52Forme j52NearSquare j52Cap
                   Hcap _) eq_refl).
  exists j52NearSquare. split; [exact Hadj | reflexivity].
Defined.

(** The apex cap of the diminished icosahedron, opposite its pentagon. *)
Lemma alignment_para_meta_witness :
  hasAlignment j11Forme = true /\
  modifications j11Forme = [Some (BaseFace j11Pentagon)] /\
  alignment normalOf opposite j11Forme (BaseCap (nth 3 (caps j11) j11Cap2))
  = Ok (Some Para) /\
  alignment normalOf opposite j11Forme (BaseCap j11Cap2) = Ok (Some Meta).
Proof.
  assert (Hhas : hasAlignment j11Forme = true) by reflexivity.
  assert (Hmod : modifications j11Forme = [Some (BaseFace j11Pentagon)])
    by (vm_compute; reflexivity).
  split; [exact Hhas |]. split; [exact Hmod |]. split.
  - destruct (alignment_para_meta normalOf opposite j11Forme
                (BaseCap (nth 3 (caps j11) j11Cap2))) as (_ & Hsingle & _).
    destruct (Hsingle _ Hhas Hmod) as (_ & Hpara & _).
    apply Hpara. vm_compute. reflexivity.
  - destruct (alignment_para_meta normalOf opposite j11Forme
                (BaseCap j11Cap2)) as (_ & Hsingle & _).
    destruct (Hsingle _ Hhas Hmod) as (_ & _ & Hmeta).
    apply Hmeta. vm_compute. reflexivity.
Defined.

End SolidFacts.

(* --------------------------------------------------------------------- *)
(** ** The operation engine *)
(* --------------------------------------------------------------------- *)

Module OperationPairFacts.
Import OperationPairs JsFacts.

Lemma find_first {A} (p : A -> bool) (pre post : list A) (a : A) :
  (forall b, In b pre -> p b = false) -> p a = true ->
  List.find p (pre ++ a :: post) = Some a.
Proof.
  induction pre as [| b pre IH]; intros Hpre Ha; simpl.
  - now rewrite Ha.
  - rewrite (Hpre b (or_introl eq_refl)). apply IH; [| exact Ha].
    intros c Hc. apply Hpre. now right.
Qed.

Lemma find_all_false {A} (p : A -> bool) (l : list A) :
  (forall a, In a l -> p a = false) -> List.find p l = None.
Proof.
  induction l as [| a l IH]; intros Hall; simpl; [reflexivity |].
  rewrite (Hall a (or_introl eq_refl)). apply IH.
  intros b Hb. apply Hall. now right.
Qed.

Section Engine.
Context {Specs Forme Geom Pose Verts : Type}.
Variable equals : Specs -> Specs -> bool.
Variable equivalent : Specs -> Specs -> bool.
Variable specName : Specs -> string.
Variable formeSpecs : Forme -> Specs.
Variable formeGeom : Forme -> Geom.
Variable geomVertices : Geom -> Verts.
Variable createForme : Specs -> Geom -> result Forme.
Variable getGeometry : Specs -> result Geom.
Variable alignPolyhedron : Geom -> Pose -> Pose -> result Geom.
Variable withVertices : Geom -> Verts -> result Geom.

Abbreviation Op := (@OpPair Specs Forme Pose Verts).
Abbreviation getEntry' := (getEntry equals specName).
Abbreviation getOpposite' := (getOpposite equals specName).
Abbreviation apply' :=
  (apply equals specName formeSpecs formeGeom geomVertices createForme
         getGeometry alignPolyhedron withVertices).
Abbreviation applyEntry' :=
  (applyEntry formeSpecs formeGeom geomVertices createForme getGeometry
              alignPolyhedron withVertices).

(** C2. [getEntry] throws exactly when no entry of the graph has, on
    the given side, specs equal to the given ones and options that
    contain every field of the caller's options (none, when the caller
    passes no options); otherwise it returns the first such entry.
    [apply] throws that same error when [getEntry] does, and otherwise
    runs on the entry found: nothing else is checked before the
    geometry is computed. *)
Theorem getEntry_gate (op : Op) (side : Side) (specs : Specs)
        (opts : option object) :
  let admits (entry : GraphEntry) :=
    equals (specsOf side entry) specs = true
    /\ forall k v, default ∅ opts !! k = Some v ->
                   entryOpts side entry !! k = Some v in
  (throws (getEntry' op side specs opts)
   <-> ~ exists entry, In entry (graph op) /\ admits entry) /\
  (forall entry, getEntry' op side specs opts = Ok entry ->
     admits entry /\
     exists pre post, graph op = pre ++ entry :: post
                      /\ forall e, In e pre -> ~ admits e) /\
  (forall solid : Forme, formeSpecs solid = specs ->
     match getEntry' op side specs opts with
     | Ok entry => apply' op side solid opts = applyEntry' op side solid entry
     | Throw e =>
         apply' op side solid opts = Throw e
         /\ e = CouldNotFindEntry side (specName specs)
     end).
Proof.
  intros admits.
  assert (Hadm : forall e, entryMatches equals side specs opts e = true
                           <-> admits e).
  { intros e. unfold entryMatches, admits.
    rewrite andb_true_iff, isMatch_spec. reflexivity. }
  unfold getEntry, findEntry, throws.
  split; [| split].
  - destruct (List.find _ _) as [entry |] eqn:Hfind.
    + split; [intros [e He]; discriminate He |].
      intros Hnone. exfalso. apply Hnone.
      apply find_some in Hfind as [Hin Hm]. exists entry.
      split; [exact Hin | now apply Hadm].
    + split; [| intros _; eexists; reflexivity].
      intros _ (entry & Hin & Hm).
      pose proof (find_none _ _ Hfind entry Hin) as Hno.
      apply Hadm in Hm. congruence.
  - intros entry Hget.
    destruct (List.find _ _) as [entry' |] eqn:Hfind; [| discriminate].
    injection Hget as ->.
    split; [apply Hadm; now apply find_some in Hfind |].
    clear Hadm. revert Hfind.
    induction (graph op) as [| e l IH]; simpl; [discriminate |].
    destruct (entryMatches equals side specs opts e) eqn:He.
    * intros [= ->]. exists [], l. split; [reflexivity | intros ? []].
    * intros Hfind. destruct (IH Hfind) as (pre & post & -> & Hpre).
      exists (e :: pre), post. split; [reflexivity |].
      intros e' [<- | Hin]; [| now apply Hpre].
      unfold entryMatches in He. unfold admits.
      rewrite <- isMatch_spec, <- andb_true_iff. congruence.
  - intros solid <-. unfold apply, getEntry, findEntry.
    destruct (List.find _ _); simpl; auto.
Qed.

(** C3 (amended). Take an entry of the graph that no earlier entry
    shadows on either side (no earlier entry has equal specs on that
    side together with options containing the entry's own); then, with
    the entry's own options, left-to-right from its left specs yields
    its right specs, and right-to-left from there yields its left specs
    again. *)
Theorem getOpposite_round_trip (op : Op) (entry : GraphEntry)
        (pre post : list GraphEntry)
    (Hgraph : graph op = pre ++ entry :: post)
    (Hleft : equals (left entry) (left entry) = true)
    (Hright : equals (right entry) (right entry) = true)
    (Hfirst : forall side e, In e pre ->
       entryMatches equals side (specsOf side entry)
                    (optsOf side <$> options entry) e = false) :
  let leftOpts := optsOf SLeft <$> options entry in
  let rightOpts := optsOf SRight <$> options entry in
  getOpposite' op SLeft (left entry) leftOpts = Ok (right entry) /\
  getOpposite' op SRight (right entry) rightOpts = Ok (left entry) /\
  (let* there := getOpposite' op SLeft (left entry) leftOpts in
   getOpposite' op SRight there rightOpts) = Ok (left entry).
Proof.
  intros leftOpts rightOpts.
  assert (Hfind : forall side,
             equals (specsOf side entry) (specsOf side entry) = true ->
             findEntry equals op side (specsOf side entry)
                       (optsOf side <$> options entry) = Some entry).
  { intros side Hrefl. unfold findEntry. rewrite Hgraph.
    apply find_first; [intros e He; now apply Hfirst |].
    unfold entryMatches, entryOpts. rewrite Hrefl. simpl.
    destruct (options entry); simpl; [apply isMatch_refl | apply isMatch_empty]. }
  assert (Hl : getOpposite' op SLeft (left entry) leftOpts = Ok (right entry)).
  { pose proof (Hfind SLeft Hleft) as Hf. simpl in Hf.
    unfold getOpposite, getEntry, leftOpts. now rewrite Hf. }
  assert (Hr : getOpposite' op SRight (right entry) rightOpts = Ok (left entry)).
  { pose proof (Hfind SRight Hright) as Hf. simpl in Hf.
    unfold getOpposite, getEntry, rightOpts. now rewrite Hf. }
  split; [exact Hl |]. split; [exact Hr |].
  rewrite Hl. simpl. exact Hr.
Qed.

Section Combine.
Context {O : Type}.

Abbreviation scan := (@scanGraph Specs Forme Geom Verts equivalent
                        formeSpecs formeGeom createForme O).
Abbreviation dispatch R :=
  (@doWithRightForme Specs Forme Geom Verts equivalent specName
     formeSpecs formeGeom createForme O R).
Abbreviation takes' := (@takes Specs Forme Geom Verts equivalent
                          formeSpecs formeGeom createForme O).
Abbreviation passes' := (@passes Specs Forme Geom Verts equivalent
                           formeSpecs formeGeom createForme O).
Abbreviation combine :=
  (@combineOps Specs Forme Geom Verts equivalent specName formeSpecs
     formeGeom createForme O).

Lemma scan_passes (op : OpInput O) solid opts entries :
  (forall e, In e entries -> passes' op solid opts e) ->
  scan op solid opts entries = Ok None.
Proof.
  induction entries as [| e l IH]; intros Hall; simpl; [reflexivity |].
  assert (IH' := IH (fun e' He' => Hall e' (or_intror He'))).
  destruct (Hall e (or_introl eq_refl)) as [Hne | (forme & go & Hc & Hg & Hm)].
  - now rewrite Hne.
  - destruct (equivalent _ _); simpl; [| exact IH'].
    rewrite Hc. simpl. rewrite Hg. simpl. now rewrite Hm.
Qed.

Lemma scan_takes (op : OpInput O) solid opts g1 e g2 forme go :
  (forall e', In e' g1 -> passes' op solid opts e') ->
  takes' op solid opts e forme go ->
  scan op solid opts (g1 ++ e :: g2) = Ok (Some (forme, go)).
Proof.
  intros Hpre (Heq & Hc & Hg & Hm).
  induction g1 as [| e' l IH]; simpl.
  - rewrite Heq. simpl. rewrite Hc. simpl. rewrite Hg. simpl.
    now rewrite Hm.
  - assert (IH' := IH (fun x Hx => Hpre x (or_intror Hx))).
    destruct (Hpre e' (or_introl eq_refl))
      as [Hne | (forme' & go' & Hc' & Hg' & Hm')].
    + now rewrite Hne.
    + destruct (equivalent (start e') (formeSpecs solid)); simpl;
        [| exact IH'].
      rewrite Hc'. simpl. rewrite Hg'. simpl. now rewrite Hm'.
Qed.

Lemma scan_found (op : OpInput O) solid opts entries forme go :
  scan op solid opts entries = Ok (Some (forme, go)) ->
  exists e, In e entries /\ takes' op solid opts e forme go.
Proof.
  induction entries as [| e l IH]; simpl; [discriminate |].
  destruct (equivalent (start e) (formeSpecs solid)) eqn:Heq; simpl.
  - destruct (createForme _ _) as [forme' |] eqn:Hc; simpl; [| discriminate].
    destruct (opToGraphOpts op forme' opts) as [go' |] eqn:Hg; simpl;
      [| discriminate].
    destruct (isMatch _ _) eqn:Hm.
    + intros [= <- <-]. exists e. split; [now left |]. repeat split; assumption.
    + intros Hrest. destruct (IH Hrest) as (e' & Hin & Ht).
      exists e'. split; [now right | exact Ht].
  - intros Hrest. destruct (IH Hrest) as (e' & Hin & Ht).
    exists e'. split; [now right | exact Ht].
Qed.

Lemma dispatch_first {R} (pre post : list (OpInput O)) op solid opts
      g1 e g2 forme go
      (callback : OpInput O -> Forme -> option object -> result R) :
  (forall op', In op' pre ->
     forall e', In e' (opGraph op') -> passes' op' solid opts e') ->
  opGraph op = g1 ++ e :: g2 ->
  (forall e', In e' g1 -> passes' op solid opts e') ->
  takes' op solid opts e forme go ->
  dispatch R (pre ++ op :: post) solid opts callback
  = callback op forme go.
Proof.
  intros Hpre Hg Hg1 Ht.
  induction pre as [| op' pre IH]; simpl.
  - rewrite Hg, (scan_takes op solid opts g1 e g2 forme go Hg1 Ht).
    reflexivity.
  - rewrite (scan_passes op' solid opts _ (Hpre op' (or_introl eq_refl))).
    simpl. apply IH. intros op'' Hin. apply Hpre. now right.
Qed.

Lemma dispatch_none {R} (ops : list (OpInput O)) solid opts
      (callback : OpInput O -> Forme -> option object -> result R) :
  (forall op, In op ops ->
     forall e, In e (opGraph op) ->
       forall forme go, ~ takes' op solid opts e forme go) ->
  throws (dispatch R ops solid opts callback).
Proof.
  induction ops as [| op ops IH]; intros Hnone; simpl.
  - eexists. reflexivity.
  - destruct (scan op solid opts (opGraph op)) as [[[forme go] |] | err]
      eqn:Hscan; simpl.
    + apply scan_found in Hscan as (e & Hin & Ht).
      exfalso. exact (Hnone op (or_introl eq_refl) e Hin forme go Ht).
    + apply IH. intros op' Hin. apply Hnone. now right.
    + eexists. reflexivity.
Qed.

Lemma dispatch_passes {R} (ops : list (OpInput O)) solid opts
      (callback : OpInput O -> Forme -> option object -> result R) :
  (forall op, In op ops ->
     forall e, In e (opGraph op) -> passes' op solid opts e) ->
  dispatch R ops solid opts callback
  = Throw (NoMatchingGraphEntry (specName (formeSpecs solid))).
Proof.
  induction ops as [| op ops IH]; intros Hall; simpl; [reflexivity |].
  rewrite (scan_passes op solid opts _ (Hall op (or_introl eq_refl))).
  simpl. apply IH. intros op' Hin. apply Hall. now right.
Qed.

(** C4. [apply] and [toGraphOpts] of a combined operation go to the
    first sub-operation, in list order, whose graph has an entry with
    a start equivalent to the solid's specs and options matching the
    graph options derived for it, every entry looked at before being
    passed over; when no entry of any sub-operation can be taken,
    both throw, and when every entry is passed over the error is the
    one of [combineOps]. *)
Theorem combineOps_dispatch (ops : list (OpInput O)) (solid : Forme)
        (opts : O) :
  (forall pre op post g1 e g2 forme go,
     ops = pre ++ op :: post ->
     opGraph op = g1 ++ e :: g2 ->
     (forall op', In op' pre ->
        forall e', In e' (opGraph op') -> passes' op' solid opts e') ->
     (forall e', In e' g1 -> passes' op solid opts e') ->
     takes' op solid opts e forme go ->
     opApply (combine ops) solid opts = opApply op forme opts
     /\ opToGraphOpts (combine ops) solid opts = Ok go) /\
  ((forall op, In op ops ->
      forall e, In e (opGraph op) ->
        forall forme go, ~ takes' op solid opts e forme go) ->
   throws (opApply (combine ops) solid opts)
   /\ throws (opToGraphOpts (combine ops) solid opts)) /\
  ((forall op, In op ops ->
      forall e, In e (opGraph op) -> passes' op solid opts e) ->
   opApply (combine ops) solid opts
   = Throw (NoMatchingGraphEntry (specName (formeSpecs solid)))
   /\ opToGraphOpts (combine ops) solid opts
      = Throw (NoMatchingGraphEntry (specName (formeSpecs solid)))).
Proof.
  split; [| split].
  - intros pre op post g1 e g2 forme go -> Hg Hpre Hg1 Ht. simpl.
    split; now apply (dispatch_first pre post op solid opts g1 e g2 forme go).
  - intros Hnone. simpl. split; now apply dispatch_none.
  - intros Hall. simpl. split; now apply dispatch_passes.
Qed.

End Combine.

End Engine.

End OperationPairFacts.

Module PrismOpFacts.
Import OperationPairs PrismOps Catalog OperationPairFacts.

Section Elongate.
Context {Forme Geom Pose Verts : Type}.
Variable table : list Capstone.
Variable P : CapstonePredicates.
Variable name : Capstone -> string.
Variable getCapstonePose : Forme -> option Twist -> result Pose.
Variable doPrismTransform :
  Forme -> Capstone -> option Twist -> result Verts.
Variable formeSpecs : Forme -> Capstone.
Variable formeGeom : Forme -> Geom.
Variable geomVertices : Geom -> Verts.
Variable createForme : Capstone -> Geom -> result Forme.
Variable getGeometry : Capstone -> result Geom.
Variable alignPolyhedron : Geom -> Pose -> Pose -> result Geom.
Variable withVertices : Geom -> Verts -> result Geom.

(** Whatever the catalog, [elongate] has no entry for a solid that is
    already elongated or gyroelongated: every left specs of its graph
    has no elongation. *)
Lemma elongate_needs_unelongated (solid : Forme) (opts : option object) :
  elongation (formeSpecs solid) <> None ->
  opApply
    (PrismOps.elongate table P name getCapstonePose doPrismTransform
       formeSpecs formeGeom geomVertices createForme getGeometry
       alignPolyhedron withVertices)
    solid opts
  = Throw (CouldNotFindEntry SLeft (name (formeSpecs solid))).
Proof.
  intros Helong. simpl. unfold apply, getEntry, findEntry.
  replace (List.find _ _) with (@None (@GraphEntry Capstone));
    [reflexivity |].
  symmetry. apply find_all_false. intros entry Hin.
  simpl in Hin. unfold prismGraph in Hin.
  apply in_map_iff in Hin as (item & <- & _).
  unfold entryMatches. simpl. unfold equals.
  rewrite bool_decide_eq_false_2; [reflexivity |].
  intros Heq. apply Helong. now rewrite <- Heq.
Qed.
End Elongate.

Abbreviation getOpposite' := (getOpposite equals capstoneName).

(** C3, as stated, fails twice. On a graph with two entries on the square
    pyramid, left-to-right from the second entry's left specs yields the
    first entry's right specs, which is not equivalent to the second's.
    And [elongate] does not apply to a gyroelongated square pyramid at
    all, so there is nothing for [shorten] to undo. *)
Lemma round_trip_counterexample :
  (let second := {| left := squarePyramid;
                    right := gyroelongatedSquarePyramid;
                    options := None |} in
   In second (graph forkedPair) /\
   getOpposite' forkedPair SLeft (left second) None
   = Ok elongatedSquarePyramid /\
   equivalent elongatedSquarePyramid (right second) = false) /\
  opApply squareElongate gyroelongatedSquarePyramid None
  = Throw (CouldNotFindEntry SLeft "gyroelongated square pyramid").
Proof.
  split; [| vm_compute; reflexivity].
  split; [right; left; reflexivity |].
  split; vm_compute; reflexivity.
Qed.

(** The square bipyramid entry of the elongate pair, behind the square
    pyramid's. *)
Lemma getOpposite_round_trip_witness :
  getOpposite' squareElongatePair SLeft squareBipyramid None
  = Ok elongatedSquareBipyramid /\
  getOpposite' squareElongatePair SRight elongatedSquareBipyramid None
  = Ok squareBipyramid /\
  (let* there := getOpposite' squareElongatePair SLeft squareBipyramid None in
   getOpposite' squareElongatePair SRight there None) = Ok squareBipyramid.
Proof.
  refine (getOpposite_round_trip equals capstoneName squareElongatePair
            {| left := squareBipyramid; right := elongatedSquareBipyramid;
               options := None |}
            [ {| left := squarePyramid; right := elongatedSquarePyramid;
                 options := None |} ] [] _ _ _ _).
  - vm_compute. reflexivity.
  - vm_compute. reflexivity.
  - vm_compute. reflexivity.
  - intros side e [<- | []]. destruct side; vm_compute; reflexivity.
Defined.

Abbreviation takes' :=
  (takes (O := option object) equivalent id id createForme).

(** [shorten] on the gyroelongated square pyramid: the elongate pair is
    passed over and the gyroelongated-pyramid pair is taken. *)
Lemma combineOps_dispatch_witness :
  opToGraphOpts squareShorten gyroelongatedSquarePyramid None = Ok None /\
  opApply squareShorten gyroelongatedSquarePyramid None
  = opApply shortenGyroelongatedPyramid gyroelongatedSquarePyramid None /\
  throws (opApply squareShorten squarePyramid None).
Proof.
  pose proof (combineOps_dispatch equivalent capstoneName id id createForme
                shortenParts gyroelongatedSquarePyramid None)
    as (Hfirst & _ & _).
  pose proof (combineOps_dispatch equivalent capstoneName id id createForme
                shortenParts squarePyramid None)
    as (_ & _ & Hnone).
  split; [| split].
  - refine (proj2 (Hfirst [shortenElongated] shortenGyroelongatedPyramid
                     [shortenGyroelongatedCupola;
                      shortenGyroelongatedBicupola] []
                     {| start := gyroelongatedSquarePyramid;
                        finish := squarePyramid; dirOptions := None |}
                     [ {| start := gyroelongatedSquareBipyramid;
                          finish := squareBipyramid; dirOptions := None |} ]
                     gyroelongatedSquarePyramid None _ _ _ _ _)).
    + reflexivity.
    + vm_compute. reflexivity.
    + intros op' [<- | []] e' Hin. left.
      vm_compute in Hin. destruct Hin as [<- | [<- | []]]; vm_compute; reflexivity.
    + intros e' [].
    + repeat split; vm_compute; reflexivity.
  - refine (proj1 (Hfirst [shortenElongated] shortenGyroelongatedPyramid
                     [shortenGyroelongatedCupola;
                      shortenGyroelongatedBicupola] []
                     {| start := gyroelongatedSquarePyramid;
                        finish := squarePyramid; dirOptions := None |}
                     [ {| start := gyroelongatedSquareBipyramid;
                          finish := squareBipyramid; dirOptions := None |} ]
                     gyroelongatedSquarePyramid None _ _ _ _ _)).
    + reflexivity.
    + vm_compute. reflexivity.
    + intros op' [<- | []] e' Hin. left.
      vm_compute in Hin. destruct Hin as [<- | [<- | []]]; vm_compute; reflexivity.
    + intros e' [].
    + repeat split; vm_compute; reflexivity.
  - eexists. refine (proj1 (Hnone _)).
    intros op Hop e He. left.
    vm_compute in Hop.
    destruct Hop as [<- | [<- | [<- | [<- | []]]]];
      vm_compute in He; repeat (destruct He as [<- | He]; [vm_compute; reflexivity |]);
      destruct He.
Defined.

Lemma getEntry_gate_witness :
  throws (getEntry equals capstoneName squareElongatePair SLeft
                   gyroelongatedSquarePyramid None) /\
  getEntry equals capstoneName squareElongatePair SLeft squarePyramid None
  = Ok {| left := squarePyramid; right := elongatedSquarePyramid;
          options := None |}.
Proof.
  split.
  - apply (proj1 (getEntry_gate equals capstoneName id id (fun _ => ())
                    createForme getGeometry alignPolyhedron withVertices
                    squareElongatePair SLeft gyroelongatedSquarePyramid None)).
    intros (entry & Hin & Heq & _).
    vm_compute in Hin. destruct Hin as [<- | [<- | []]]; discriminate Heq.
  - reflexivity.
Defined.

End PrismOpFacts.

(* --------------------------------------------------------------------- *)
(** ** The legacy augmentation *)
(* --------------------------------------------------------------------- *)

Module AugmentFacts.
Import LinAlg Augment LegacySolids.

(** An indexed [every] whose callback never throws returns, and returns
    true exactly when the test holds at every position. *)
Lemma everyFrom_pure {A} (p : nat -> A -> result bool)
      (q : nat -> A -> bool) (l : list A) :
  forall i,
    (forall j a, l !! j = Some a -> p (i + j) a = Ok (q (i + j) a)) ->
    exists b, everyFrom p i l = Ok b
              /\ (b = true <->
                  forall j a, l !! j = Some a -> q (i + j) a = true).
Proof.
  induction l as [| a l IH]; intros i Hp; simpl.
  - exists true. split; [reflexivity |]. split; [| reflexivity].
    intros _ j x Hj. discriminate Hj.
  - pose proof (Hp 0 a eq_refl) as H0. rewrite Nat.add_0_r in H0.
    rewrite H0. simpl.
    destruct (q i a) eqn:Hq.
    + destruct (IH (S i)) as (b & Hb & Hiff).
      { intros j x Hj. specialize (Hp (S j) x Hj).
        now rewrite Nat.add_succ_r in Hp. }
      exists b. split; [exact Hb |]. rewrite Hiff. split.
      * intros Hall [| j] x Hj.
        -- injection Hj as <-. now rewrite Nat.add_0_r.
        -- rewrite Nat.add_succ_r. now apply (Hall j x).
      * intros Hall j x Hj. specialize (Hall (S j) x Hj).
        now rewrite Nat.add_succ_r in Hall.
    + exists false. split; [reflexivity |]. split; [discriminate |].
      intros Hall. specialize (Hall 0 a eq_refl).
      rewrite Nat.add_0_r in Hall. congruence.
Qed.

Section Augmentees.
Variable get : string -> Polyhedron.

(** The condition of the claim: every edge of the base, with the
    underside edge at its position minus one plus the offset, stays
    strictly below [PI - PRECISION]. *)
Abbreviation convexAll base underside offset :=
  (forall i e, edges base !! i = Some e ->
     (dihedralAngle e
      + dihedralAngle (edge underside (Z.of_nat i - 1 + offset))
      <? PI - PRECISION)%float = true).

Lemma canAugmentWith_defined (base : Face) (augmentee : Polyhedron)
      (offset : Z) (underside : Face) :
  faceWithNumSides augmentee (numSides base) = Some underside ->
  exists b, canAugmentWith base augmentee offset = Ok b
            /\ (b = true <-> convexAll base underside offset).
Proof.
  intros Hunder. unfold canAugmentWith, everyIndexed. rewrite Hunder.
  apply (everyFrom_pure _
           (fun i e => convexAt (dihedralAngle e)
                         (dihedralAngle
                            (edge underside (Z.of_nat i - 1 + offset))))
           (edges base) 0).
  intros j a _. reflexivity.
Qed.

Lemma mapResult_lookup {A B} (f : A -> result B) (l : list A) :
  forall bs i a,
    mapResult f l = Ok bs -> l !! i = Some a ->
    exists b, f a = Ok b /\ bs !! i = Some b.
Proof.
  induction l as [| x l IH]; intros bs i a Hmap Hi; [discriminate Hi |].
  simpl in Hmap. destruct (f x) as [b |] eqn:Hx; [| discriminate].
  simpl in Hmap. destruct (mapResult f l) as [bs' |]; [| discriminate].
  injection Hmap as <-.
  destruct i as [| i]; simpl in Hi.
  - injection Hi as <-. exists b. split; [exact Hx | reflexivity].
  - exact (IH bs' i a eq_refl Hi).
Qed.

(** C8. With an augmentee that has a face of the base's side count
    (its underside), [canAugmentWith] returns true exactly when, on
    every edge of the base, the base edge's dihedral angle plus that of
    the underside edge at the same position minus one plus the offset
    is strictly below [Math.PI - PRECISION], with [PRECISION = 1e-3]
    (in double arithmetic). For a pentagon the only augmentee is the
    pentagonal pyramid, and [canAugment] and the face's entry of
    [getAugmentGraph] are true exactly when the condition holds at
    offset 0 or at offset 1. *)
Theorem canAugmentWith_convex (base : Face) :
  (forall augmentee offset underside,
     faceWithNumSides augmentee (numSides base) = Some underside ->
     exists b, canAugmentWith base augmentee offset = Ok b
               /\ (b = true <-> convexAll base underside offset)) /\
  (forall underside,
     numSides base = 5 ->
     faceWithNumSides (get "pentagonal-pyramid") 5 = Some underside ->
     getPossibleAugmentees get 5 = [get "pentagonal-pyramid"]
     /\ exists b, canAugment get base = Ok b
                  /\ (b = true <->
                      convexAll base underside 0%Z
                      \/ convexAll base underside 1%Z)) /\
  (forall polyhedron graph i,
     getAugmentGraph get polyhedron = Ok graph ->
     getFaces polyhedron !! i = Some base ->
     exists b, canAugment get base = Ok b /\ graph !! i = Some b) /\
  PRECISION = 0x1.0624dd2f1a9fcp-10%float.
Proof.
  split; [| split; [| split; [| reflexivity]]]; cycle 2.
  { intros polyhedron graph i. unfold getAugmentGraph.
    apply mapResult_lookup. }
  - intros augmentee offset underside. apply canAugmentWith_defined.
  - intros underside Hn Hunder. split; [reflexivity |].
    unfold canAugment. rewrite Hn. simpl.
    rewrite <- Hn in Hunder.
    destruct (canAugmentWith_defined base (get "pentagonal-pyramid") 0%Z
                underside Hunder) as (b0 & -> & H0).
    destruct (canAugmentWith_defined base (get "pentagonal-pyramid") 1%Z
                underside Hunder) as (b1 & Hb1 & H1).
    simpl. destruct b0; simpl.
    + exists true. split; [reflexivity |]. split; [| reflexivity].
      intros _. left. now apply H0.
    + rewrite Hb1. simpl. exists b1. split; [now destruct b1 |].
      rewrite H1. split; [now right |].
      intros [Hc | Hc]; [| exact Hc].
      apply H0 in Hc. discriminate Hc.
Qed.
End Augmentees.

(** The base of the pentagonal pyramid takes a second pentagonal pyramid
    (the pentagonal bipyramid); its triangles take nothing. *)
Lemma canAugmentWith_convex_witness :
  canAugmentWith pentagonalPyramidBase pentagonalPyramid 0 = Ok true /\
  canAugment get pentagonalPyramidBase = Ok true /\
  getAugmentGraph get pentagonalPyramid
  = Ok [true; false; false; false; false; false].
Proof.
  destruct (canAugmentWith_convex get pentagonalPyramidBase)
    as (Hwith & Hpent & _ & _).
  split; [| split].
  - destruct (Hwith pentagonalPyramid 0%Z pentagonalPyramidBase eq_refl)
      as (b & Hb & Hiff).
    rewrite Hb. f_equal. apply Hiff.
    intros i e Hi.
    do 5 (destruct i as [| i]; [injection Hi as <-; vm_compute; reflexivity |]).
    discriminate Hi.
  - destruct (Hpent pentagonalPyramidBase eq_refl eq_refl)
      as (_ & b & Hb & Hiff).
    rewrite Hb. f_equal. apply Hiff. left.
    intros i e Hi.
    do 5 (destruct i as [| i]; [injection Hi as <-; vm_compute; reflexivity |]).
    discriminate Hi.
  - vm_compute. reflexivity.
Defined.

Section Align.
Variable acos : float -> float.

Lemma orZero_not_nan (x : float) : PrimFloat.is_nan (orZero x) = false.
Proof.
  unfold orZero.
  destruct (PrimFloat.is_nan x) eqn:Hnan; simpl; [reflexivity |].
  destruct (PrimFloat.is_zero x); [reflexivity | exact Hnan].
Qed.

(** C9 (amended). The rotation axis is the normalised cross product of
    the two normals unless that normalised vector is shorter than
    [PRECISION], in which case it is the normalised direction from the
    base's centroid to its first vertex; this is the case whenever the
    cross product is the zero vector. The angle is never [NaN]: a
    [NaN] (or zero) angle is replaced by [0]. *)
Theorem alignBases_fallback (undersideNormal baseNormal baseV0 baseCenter
                             : Vec3D) :
  let cr := cross undersideNormal baseNormal in
  let fallback := getNormalized (sub baseV0 baseCenter) in
  let axis := alignBasesNormal undersideNormal baseNormal baseV0 baseCenter in
  ((magnitude (getNormalized cr) <? PRECISION)%float = true ->
     axis = fallback) /\
  ((magnitude (getNormalized cr) <? PRECISION)%float = false ->
     axis = getNormalized cr) /\
  (isZero (vx cr) -> isZero (vy cr) -> isZero (vz cr) -> axis = fallback) /\
  PrimFloat.is_nan (alignBasesAngle acos undersideNormal baseNormal) = false /\
  (PrimFloat.is_nan (angleBetween acos baseNormal undersideNormal) = true ->
     alignBasesAngle acos undersideNormal baseNormal = 0%float).
Proof.
  intros cr fallback axis. subst axis fallback.
  unfold alignBasesNormal. fold cr.
  split; [| split; [| split; [| split]]].
  - now intros ->.
  - now intros ->.
  - destruct cr as [x y z]. simpl.
    intros [-> | ->] [-> | ->] [-> | ->]; reflexivity.
  - apply orZero_not_nan.
  - unfold alignBasesAngle, orZero. now intros ->.
Qed.
End Align.

(** C9, as stated, fails on two unit normals half a thousandth of a
    radian apart: their cross product is shorter than [PRECISION] and not
    zero, yet the axis is the normalised cross product, not the direction
    from the centroid to the first vertex. *)
Lemma alignBases_counterexample :
  let cr := cross undersideNormal tiltedNormal in
  (magnitude cr <? PRECISION)%float = true /\
  (0 <? magnitude cr)%float = true /\
  magnitude undersideNormal = 1%float /\
  magnitude tiltedNormal = 1%float /\
  dot tiltedNormal (sub baseV0 baseCenter) = 0%float /\
  alignBasesNormal undersideNormal tiltedNormal baseV0 baseCenter
  = {| vx := -1; vy := 0; vz := 0 |}%float /\
  getNormalized (sub baseV0 baseCenter)
  = {| vx := 1; vy := 0; vz := 0 |}%float.
Proof. repeat split; vm_compute; reflexivity. Qed.

Lemma alignBases_fallback_witness :
  alignBasesNormal undersideNormal undersideNormal baseV0 baseCenter
  = getNormalized (sub baseV0 baseCenter) /\
  alignBasesNormal undersideNormal tiltedNormal baseV0 baseCenter
  = getNormalized (cross undersideNormal tiltedNormal).
Proof.
  split.
  - apply (alignBases_fallback (fun x => x) undersideNormal undersideNormal
             baseV0 baseCenter); left; vm_compute; reflexivity.
  - apply (alignBases_fallback (fun x => x) undersideNormal tiltedNormal
             baseV0 baseCenter). vm_compute. reflexivity.
Defined.

End AugmentFacts.



(* --------------------------------------------------------------------- *)
(** ** More on the operation engine: applicability, options, graphs *)
(* --------------------------------------------------------------------- *)

Module EngineFacts.
Import OperationPairs JsFacts OperationPairFacts.

Lemma find_among {A} (p : A -> bool) (l : list A) (a : A) :
  In a l -> p a = true ->
  exists b, List.find p l = Some b /\ In b l /\ p b = true.
Proof.
  intros Hin Ha.
  destruct (List.find p l) as [b |] eqn:Hfind.
  - exists b. apply find_some in Hfind as [Hb Hpb]. auto.
  - pose proof (find_none _ _ Hfind a Hin). congruence.
Qed.

Section Engine.
Context {Specs Forme Geom Pose Verts : Type}.
Variable equals : Specs -> Specs -> bool.
Variable equivalent : Specs -> Specs -> bool.
Variable specName : Specs -> string.
Variable formeSpecs : Forme -> Specs.
Variable formeGeom : Forme -> Geom.
Variable geomVertices : Geom -> Verts.
Variable createForme : Specs -> Geom -> result Forme.
Variable getGeometry : Specs -> result Geom.
Variable alignPolyhedron : Geom -> Pose -> Pose -> result Geom.
Variable withVertices : Geom -> Verts -> result Geom.

Abbreviation Op := (@OpPair Specs Forme Pose Verts).
Abbreviation entries := (getEntries equals).
Abbreviation lookup := (getEntry equals specName).
Abbreviation applicable := (canApplyTo equals).

Lemma entryMatches_no_opts (side : Side) (specs : Specs) (e : GraphEntry) :
  entryMatches equals side specs None e = equals (specsOf side e) specs.
Proof.
  unfold entryMatches. simpl. rewrite isMatch_empty. apply andb_true_r.
Qed.

Lemma in_getEntries (op : Op) (side : Side) (specs : Specs) (e : GraphEntry) :
  In e (entries op side specs)
  <-> In e (graph op) /\ equals (specsOf side e) specs = true.
Proof.
  unfold getEntries. rewrite <- !list_elem_of_In, list_elem_of_filter.
  split; intros [H1 H2]; split; assumption.
Qed.

Lemma applicable_iff (op : Op) (side : Side) (specs : Specs) :
  applicable op side specs = true
  <-> exists e, In e (graph op) /\ equals (specsOf side e) specs = true.
Proof.
  unfold canApplyTo, findEntry. rewrite bool_decide_eq_true. split.
  - intros [e He]. apply find_some in He as [Hin Hm].
    rewrite entryMatches_no_opts in Hm. eauto.
  - intros (e & Hin & Heq).
    destruct (find_among (entryMatches equals side specs None) _ e Hin)
      as (b & -> & _); [now rewrite entryMatches_no_opts | eauto].
Qed.

Lemma lookup_applicable (op : Op) (side : Side) (specs : Specs) opts e :
  lookup op side specs opts = Ok e -> applicable op side specs = true.
Proof.
  unfold getEntry, findEntry.
  destruct (List.find _ _) as [e' |] eqn:Hfind; [| discriminate].
  intros _. apply applicable_iff. apply find_some in Hfind as [Hin Hm].
  unfold entryMatches in Hm. apply andb_true_iff in Hm as [Heq _]. eauto.
Qed.

(** X1. [canApplyTo] holds exactly when [getEntries] is not empty, which
    is exactly when [getEntry] without options returns; a solid that has
    options, or for which [getEntry] returns under some options, can be
    applied to; and where [canApplyTo] is false, [getEntry] throws whatever
    the options. *)
Theorem canApplyTo_entries (op : Op) (side : Side) (specs : Specs) :
  (applicable op side specs = true <-> entries op side specs <> []) /\
  (applicable op side specs = true
   <-> exists e, lookup op side specs None = Ok e) /\
  (hasOptions equals op side specs = true -> applicable op side specs = true) /\
  (forall opts e, lookup op side specs opts = Ok e ->
     applicable op side specs = true) /\
  (applicable op side specs = false ->
     forall opts, lookup op side specs opts
                  = Throw (CouldNotFindEntry side (specName specs))).
Proof.
  assert (Hnonempty : entries op side specs <> []
                      <-> exists e, In e (graph op)
                                    /\ equals (specsOf side e) specs = true).
  { split.
    - destruct (entries op side specs) as [| e l] eqn:He; [congruence |].
      intros _. exists e. apply in_getEntries. rewrite He. now left.
    - intros (e & Hin & Heq) Hnil.
      assert (Hin' : In e (entries op side specs)) by now apply in_getEntries.
      now rewrite Hnil in Hin'. }
  split; [| split; [| split; [| split]]].
  - now rewrite applicable_iff, Hnonempty.
  - split.
    + intros Ha. unfold getEntry, findEntry.
      unfold canApplyTo, findEntry in Ha. apply bool_decide_eq_true in Ha.
      destruct Ha as [e ->]. eauto.
    + intros [e He]. eapply lookup_applicable, He.
  - unfold hasOptions. intros Hlen. apply applicable_iff, Hnonempty.
    destruct (entries op side specs); [discriminate | congruence].
  - intros opts e. apply lookup_applicable.
  - intros Hno opts. unfold getEntry.
    destruct (findEntry equals op side specs opts) as [e |] eqn:Hfind;
      [| reflexivity].
    assert (Hyes : applicable op side specs = true).
    { apply (lookup_applicable op side specs opts e).
      unfold getEntry. now rewrite Hfind. }
    congruence.
Qed.

(** X2. Every option object that [allOptions] enumerates for a solid is
    accepted by [getEntry]: it finds an entry with equal specs whose options
    contain it. There is one option per entry of [getEntries], and
    [hasOptions] says that there is more than one. *)
Theorem allOptions_accepted (op : Op) (side : Side) (specs : Specs) :
  (forall o, In o (allOptions equals op side specs) ->
     exists e, lookup op side specs (Some o) = Ok e
               /\ In e (entries op side specs)
               /\ isMatch (entryOpts side e) o = true) /\
  length (allOptions equals op side specs) = length (entries op side specs) /\
  (hasOptions equals op side specs = true
   <-> 1 < length (allOptions equals op side specs)).
Proof.
  split; [| split].
  - intros o Ho. unfold allOptions in Ho.
    apply in_map_iff in Ho as (e0 & <- & He0).
    apply in_getEntries in He0 as [Hin Heq].
    destruct (find_among
                (entryMatches equals side specs (Some (entryOpts side e0)))
                (graph op) e0 Hin) as (e & Hfind & Hin' & Hm).
    { unfold entryMatches. rewrite Heq. simpl. apply isMatch_refl. }
    exists e. unfold getEntry, findEntry. rewrite Hfind.
    unfold entryMatches in Hm. apply andb_true_iff in Hm as [Heq' Hm].
    split; [reflexivity |]. split; [now apply in_getEntries | exact Hm].
  - unfold allOptions. apply length_map.
  - unfold hasOptions, allOptions. rewrite length_map. apply Nat.ltb_lt.
Qed.

(** X3. The graph a one-way operation publishes lists, for each entry of
    the pair's graph and in the same order, the specs of its own side as
    start and those of the other side as end, so the two directions publish
    mirrored graphs; and every published start whose specs equal
    themselves can be applied to, with the published options. *)
Theorem published_graph_applicable (op : Op) (side : Side) :
  let published :=
    opGraph (makeOperation equals specName formeSpecs formeGeom geomVertices
               createForme getGeometry alignPolyhedron withVertices side op) in
  map start published = map (specsOf side) (graph op) /\
  map finish published = map (specsOf (oppositeSide side)) (graph op) /\
  map start (toDirected (oppositeSide side) (graph op)) = map finish published /\
  (forall d, In d published ->
     equals (start d) (start d) = true ->
     applicable op side (start d) = true
     /\ exists e, lookup op side (start d) (dirOptions d) = Ok e
                  /\ equals (specsOf side e) (start d) = true).
Proof.
  intros published. subst published. simpl. unfold toDirected.
  rewrite !map_map. simpl.
  split; [reflexivity |]. split; [reflexivity |].
  split; [destruct side; reflexivity |].
  intros d Hd Hrefl. apply in_map_iff in Hd as (e0 & <- & Hin). simpl in *.
  destruct (find_among
              (entryMatches equals side (specsOf side e0)
                            (optsOf side <$> options e0))
              (graph op) e0 Hin) as (e & Hfind & Hin' & Hm).
  { unfold entryMatches, entryOpts. rewrite Hrefl. simpl.
    destruct (options e0); simpl; [apply isMatch_refl | apply isMatch_empty]. }
  assert (Hget : lookup op side (specsOf side e0) (optsOf side <$> options e0)
                 = Ok e).
  { unfold getEntry, findEntry. now rewrite Hfind. }
  split.
  - eapply lookup_applicable, Hget.
  - exists e. split; [exact Hget |].
    unfold entryMatches in Hm. now apply andb_true_iff in Hm as [Heq _].
Qed.

Section Combine.
Context {O : Type}.

Abbreviation scan := (@scanGraph Specs Forme Geom Verts equivalent
                        formeSpecs formeGeom createForme O).
Abbreviation dispatch R :=
  (@doWithRightForme Specs Forme Geom Verts equivalent specName
     formeSpecs formeGeom createForme O R).
Abbreviation takes' := (@takes Specs Forme Geom Verts equivalent
                          formeSpecs formeGeom createForme O).
Abbreviation combine :=
  (@combineOps Specs Forme Geom Verts equivalent specName formeSpecs
     formeGeom createForme O).

(** Whatever the dispatch loop returns was returned by the callback, on a
    sub-operation and an entry of its graph that the loop takes. *)
Lemma dispatch_returns {R} (ops : list (OpInput O)) solid opts
      (callback : OpInput O -> Forme -> option object -> result R) (r : R) :
  dispatch R ops solid opts callback = Ok r ->
  exists op d forme go,
    In op ops /\ In d (opGraph op) /\ takes' op solid opts d forme go
    /\ callback op forme go = Ok r.
Proof.
  induction ops as [| op ops IH]; simpl; [discriminate |].
  destruct (scan op solid opts (opGraph op)) as [[[forme go] |] | err]
    eqn:Hscan; simpl.
  - intros Hcb. apply scan_found in Hscan as (d & Hin & Ht).
    exists op, d, forme, go. auto.
  - intros Hrest. destruct (IH Hrest) as (op' & d & forme & go & Hop & Hrest').
    exists op', d, forme, go. split; [now right | exact Hrest'].
  - discriminate.
Qed.

(** X4. What a combined operation returns is what one of its
    sub-operations returns on the forme of an entry of its own graph that
    the dispatch takes; so [apply] and [toGraphOpts] return only for a solid
    whose specs are equivalent to a start of the combined graph, and a
    combination of no operations throws on every solid. *)
Theorem combineOps_returns (ops : list (OpInput O)) (solid : Forme)
        (opts : O) :
  (forall r, opApply (combine ops) solid opts = Ok r ->
     exists op d forme go,
       In op ops /\ In d (opGraph op) /\ takes' op solid opts d forme go
       /\ opApply op forme opts = Ok r) /\
  (forall go, opToGraphOpts (combine ops) solid opts = Ok go ->
     exists op d forme,
       In op ops /\ In d (opGraph op) /\ takes' op solid opts d forme go) /\
  (forall r, opApply (combine ops) solid opts = Ok r ->
     exists d, In d (opGraph (combine ops))
               /\ equivalent (start d) (formeSpecs solid) = true) /\
  (ops = [] ->
     opGraph (combine ops) = []
     /\ opApply (combine ops) solid opts
        = Throw (NoMatchingGraphEntry (specName (formeSpecs solid)))).
Proof.
  split; [| split; [| split]].
  - intros r Hr. simpl in Hr. now apply dispatch_returns in Hr.
  - intros go Hgo. simpl in Hgo.
    apply dispatch_returns in Hgo as (op & d & forme & go' & Hop & Hd & Ht & Hcb).
    injection Hcb as <-. exists op, d, forme. auto.
  - intros r Hr. simpl in Hr.
    apply dispatch_returns in Hr as (op & d & forme & go & Hop & Hd & Ht & _).
    exists d. split; [| apply Ht].
    simpl. apply in_flat_map. eauto.
  - intros ->. split; reflexivity.
Qed.

End Combine.

End Engine.

End EngineFacts.

(* --------------------------------------------------------------------- *)
(** ** The graphs of the prism operations *)
(* --------------------------------------------------------------------- *)

Module PrismGraphFacts.
Import OperationPairs PrismOps JsFacts OperationPairFacts EngineFacts.

Lemma equals_refl (s : Capstone) : equals s s = true.
Proof. unfold equals. now apply bool_decide_eq_true. Qed.

Lemma equals_eq (a b : Capstone) : equals a b = true -> a = b.
Proof. unfold equals. now rewrite bool_decide_eq_true. Qed.

Lemma withElongation_same (a b : Capstone) (e : option Elongation) :
  elongation a = elongation b ->
  withElongation a e = withElongation b e -> a = b.
Proof.
  destruct a, b. unfold withElongation. simpl.
  intros -> [= -> -> -> -> ->]. reflexivity.
Qed.

Lemma twistOpts_match (a b : Twist) :
  isMatch (twistOpts a) (twistOpts b) = true -> a = b.
Proof.
  rewrite isMatch_spec. intros Hm.
  specialize (Hm "twist" (twistValue b)). unfold twistOpts in Hm.
  rewrite !lookup_singleton_eq in Hm. specialize (Hm eq_refl).
  destruct a, b; first [reflexivity | discriminate Hm].
Qed.

Lemma oppositeTwist_inj (a b : Twist) :
  oppositeTwist a = oppositeTwist b -> a = b.
Proof. destruct a, b; first [reflexivity | discriminate]. Qed.

Section Graphs.
Context {Forme Pose Verts : Type}.
Variable table : list Capstone.
Variable P : CapstonePredicates.
Variable name : Capstone -> string.
Variable getCapstonePose : Forme -> option Twist -> result Pose.
Variable doPrismTransform : Forme -> Capstone -> option Twist -> result Verts.

Abbreviation opposite := (getOpposite equals name).

(** Every entry of a prism graph comes from a catalog item with the right
    elongation, with the same item under the left elongation on its left. *)
Lemma prismGraph_entry query rightE leftE (entry : @GraphEntry Capstone) :
  In entry (prismGraph table P query rightE leftE) ->
  exists item,
    entry = {| left := withElongation item leftE; right := item;
               options := None |}
    /\ In item table /\ elongation item = Some rightE
    /\ query item = true /\ isPrismatic P item = false.
Proof.
  unfold prismGraph. intros Hin.
  apply in_map_iff in Hin as (item & <- & Hitem).
  apply list_elem_of_In, list_elem_of_filter in Hitem as [Hp Hitem].
  apply andb_true_iff in Hp as [Hp He].
  apply andb_true_iff in Hp as [Hq Hnp].
  apply bool_decide_eq_true in He. apply negb_true_iff in Hnp.
  exists item. rewrite <- list_elem_of_In. auto.
Qed.

(** X5. In the graph of a prism operation pair ([makePrismOp], over any
    catalog) every entry's left specs are its right specs with only the
    elongation replaced, and every entry makes the round trip exactly:
    left-to-right from its left specs yields its right specs, and
    right-to-left from its right specs yields its left specs. *)
Theorem prismGraph_round_trip (query : Capstone -> bool)
        (rightE : Elongation) (leftE : option Elongation)
        (entry : @GraphEntry Capstone)
        (Hin : In entry (prismGraph table P query rightE leftE)) :
  let op := makePrismOp table P getCapstonePose doPrismTransform query
                        rightE leftE in
  left entry = withElongation (right entry) leftE /\
  elongation (right entry) = Some rightE /\
  opposite op SLeft (left entry) None = Ok (right entry) /\
  opposite op SRight (right entry) None = Ok (left entry).
Proof.
  intros op.
  destruct (prismGraph_entry _ _ _ _ Hin) as (item & -> & Hitem & Helong & _).
  simpl. split; [reflexivity |]. split; [exact Helong |].
  assert (Hfind : forall side,
             exists e, findEntry equals op side
                         (specsOf side {| left := withElongation item leftE;
                                          right := item; options := None |})
                         None = Some e
                       /\ In e (prismGraph table P query rightE leftE)
                       /\ equals (specsOf side e)
                            (specsOf side {| left := withElongation item leftE;
                                             right := item; options := None |})
                          = true).
  { intros side. unfold findEntry.
    destruct (find_among
                (entryMatches equals side
                   (specsOf side {| left := withElongation item leftE;
                                    right := item; options := None |}) None)
                (graph op) _ Hin) as (e & Hfind & He & Hm).
    - rewrite entryMatches_no_opts. apply equals_refl.
    - exists e. rewrite entryMatches_no_opts in Hm. auto. }
  split.
  - destruct (Hfind SLeft) as (e & Hf & He & Heq). simpl in Hf, Heq.
    unfold getOpposite, getEntry. rewrite Hf. simpl. f_equal.
    destruct (prismGraph_entry _ _ _ _ He) as (item' & -> & _ & Helong' & _).
    simpl in *. apply equals_eq in Heq.
    apply (withElongation_same item' item leftE); congruence.
  - destruct (Hfind SRight) as (e & Hf & He & Heq). simpl in Hf, Heq.
    unfold getOpposite, getEntry. rewrite Hf. simpl. f_equal.
    destruct (prismGraph_entry _ _ _ _ He) as (item' & -> & _).
    simpl in *. apply equals_eq in Heq. now subst.
Qed.

(** Every entry of a bicupola graph comes from a catalog item and a twist. *)
Lemma bicupolaGraph_entry leftE (entry : @GraphEntry Capstone) :
  In entry (bicupolaGraph table P leftE) ->
  exists item tw,
    entry = {| left := item;
               right := withElongationTwist item (Some Antiprism)
                          (Some (if isGyro P item then tw
                                 else oppositeTwist tw));
               options := Some {| optsLeft := twistOpts tw;
                                  optsRight := twistOpts (oppositeTwist tw) |}
            |}
    /\ elongation item = leftE
    /\ (exists before after,
          bicupolaGraph table P leftE
          = before
            ++ map (fun twist =>
                      {| left := item;
                         right := withElongationTwist item (Some Antiprism)
                                    (Some (if isGyro P item then twist
                                           else oppositeTwist twist));
                         options :=
                           Some {| optsLeft := twistOpts twist;
                                   optsRight := twistOpts (oppositeTwist twist)
                                |} |}) twists
            ++ after).
Proof.
  unfold bicupolaGraph. intros Hin.
  apply in_flat_map in Hin as (item & Hitem & Hin).
  apply in_map_iff in Hin as (tw & <- & _).
  exists item, tw. split; [reflexivity |].
  split.
  - apply list_elem_of_In, list_elem_of_filter in Hitem as [Hp _].
    apply andb_true_iff in Hp as [_ He]. now apply bool_decide_eq_true in He.
  - apply in_split in Hitem as (l1 & l2 & ->).
    rewrite flat_map_app. eexists _, _. reflexivity.
Qed.

(** X6. In the graph of a bicupola prism pair (over any catalog) the two
    sides of every entry carry opposite twist options, and every left specs
    has options (one entry per twist). With the entry's own options,
    left-to-right from its left specs yields its right specs exactly, and
    right-to-left from there yields specs equivalent to the left specs,
    equal to them when they carry the same twist. *)
Theorem bicupolaGraph_round_trip (leftE : option Elongation)
        (entry : @GraphEntry Capstone)
        (Hin : In entry (bicupolaGraph table P leftE)) :
  let op := makeBicupolaPrismOp table P getCapstonePose doPrismTransform
                                leftE in
  (exists tw, options entry
              = Some {| optsLeft := twistOpts tw;
                        optsRight := twistOpts (oppositeTwist tw) |}) /\
  hasOptions equals op SLeft (left entry) = true /\
  opposite op SLeft (left entry) (optsOf SLeft <$> options entry)
  = Ok (right entry) /\
  (exists back,
     opposite op SRight (right entry) (optsOf SRight <$> options entry)
     = Ok back
     /\ equivalent back (left entry) = true
     /\ (twist back = twist (left entry) -> back = left entry)).
Proof.
  intros op.
  destruct (bicupolaGraph_entry _ _ Hin)
    as (item & tw & Hentry & Helong & before & after & Hsplit).
  assert (Hfind : forall side,
             exists e, findEntry equals op side (specsOf side entry)
                         (optsOf side <$> options entry) = Some e
                       /\ In e (bicupolaGraph table P leftE)
                       /\ equals (specsOf side e) (specsOf side entry) = true
                       /\ isMatch (entryOpts side e)
                            (default ∅ (optsOf side <$> options entry)) = true).
  { intros side. unfold findEntry.
    destruct (find_among
                (entryMatches equals side (specsOf side entry)
                   (optsOf side <$> options entry))
                (graph op) _ Hin) as (e & Hfind & He & Hm).
    - unfold entryMatches, entryOpts. rewrite equals_refl. simpl.
      destruct (options entry); simpl; [apply isMatch_refl | apply isMatch_empty].
    - exists e. unfold entryMatches in Hm.
      apply andb_true_iff in Hm as [Heq Hm]. auto. }
  split; [exists tw; now rewrite Hentry |].
  split.
  { unfold hasOptions, getEntries. apply Nat.ltb_lt.
    change (graph op) with (bicupolaGraph table P leftE).
    rewrite Hsplit, !filter_app, !length_app. rewrite Hentry. simpl.
    rewrite !filter_cons_True by (simpl; apply equals_refl). simpl. lia. }
  split.
  - destruct (Hfind SLeft) as (e & Hf & He & Heq & Hm). simpl in Hf.
    unfold getOpposite, getEntry. rewrite Hf. simpl. f_equal.
    destruct (bicupolaGraph_entry _ _ He) as (item' & tw' & -> & _).
    rewrite Hentry in *. simpl in *. unfold entryOpts in Hm. simpl in Hm.
    apply equals_eq in Heq. apply twistOpts_match in Hm. now subst.
  - destruct (Hfind SRight) as (e & Hf & He & Heq & Hm). simpl in Hf.
    exists (left e). unfold getOpposite, getEntry. rewrite Hf. simpl.
    split; [reflexivity |].
    destruct (bicupolaGraph_entry _ _ He) as (item' & tw' & -> & Helong' & _).
    rewrite Hentry in *. simpl in *. unfold entryOpts in Hm. simpl in Hm.
    apply equals_eq in Heq.
    apply twistOpts_match, oppositeTwist_inj in Hm. subst tw'.
    destruct item as [b t e c g w], item' as [b' t' e' c' g' w'].
    unfold withElongationTwist in Heq. simpl in *.
    injection Heq as -> -> -> ->. subst e e'.
    split.
    + unfold equivalent, withElongationTwist. simpl.
      now apply bool_decide_eq_true.
    + now intros ->.
Qed.

End Graphs.

End PrismGraphFacts.


(* --------------------------------------------------------------------- *)
(** ** Combined cut-and-paste operations and cap options *)
(* --------------------------------------------------------------------- *)

Module CutPasteOpFacts.
Import Polyhedra CutPasteOps OperationPairFacts.

Lemma find_prefix {A} (p : A -> bool) (l : list A) (a : A) :
  List.find p l = Some a ->
  exists pre post, l = pre ++ a :: post
                   /\ (forall b, In b pre -> p b = false) /\ p a = true.
Proof.
  induction l as [| x l IH]; simpl; [discriminate |].
  destruct (p x) eqn:Hx.
  - intros [= ->]. exists [], l. split; [reflexivity |].
    split; [intros b [] | exact Hx].
  - intros Hfind. destruct (IH Hfind) as (pre & post & -> & Hpre & Ha).
    exists (x :: pre), post. split; [reflexivity |].
    split; [| exact Ha]. intros b [<- | Hb]; [exact Hx | now apply Hpre].
Qed.

Section Combine.
Context {Specs Forme Opts Result : Type}.
Variable formeSpecs : Forme -> Specs.
Variable describe : Specs -> string.

Abbreviation Args := (@CutPasteOpArgs Specs Forme Opts Result).
Abbreviation combined := (combineOps formeSpecs describe).

(** X7. A combination of cut-and-paste operations can be applied to the
    specs some operation of the list can be applied to. On a forme it cannot
    be applied to, [apply] and [getResult] throw; otherwise both go to the
    same operation, the first of the list that can be applied to the
    forme's specs. *)
Theorem cutPaste_combineOps_dispatch (ops : list Args) (forme : Forme)
        (options : Opts) :
  let specs := formeSpecs forme in
  (forall s, canApplyTo (combined ops) s = true
             <-> exists op, In op ops /\ canApplyTo op s = true) /\
  (canApplyTo (combined ops) specs = false ->
     apply (combined ops) forme options
     = Throw (External ("Could not apply any operations to "
                        ++ describe specs)%string)
     /\ getResult (combined ops) forme options
        = Throw (External ("Could not apply any operations to "
                           ++ describe specs)%string)) /\
  (canApplyTo (combined ops) specs = true ->
     exists pre op post,
       ops = pre ++ op :: post
       /\ (forall o, In o pre -> canApplyTo o specs = false)
       /\ canApplyTo op specs = true
       /\ apply (combined ops) forme options = apply op forme options
       /\ getResult (combined ops) forme options
          = getResult op forme options).
Proof.
  intros specs.
  assert (Hsome : forall s, canApplyTo (combined ops) s = true
                            <-> exists op, In op ops /\ canApplyTo op s = true).
  { intros s. simpl. apply existsb_exists. }
  split; [exact Hsome |]. split.
  - intros Hno. simpl. unfold getOp. fold specs.
    rewrite (find_all_false (fun op => canApplyTo op specs) ops); [auto |].
    intros op Hop. destruct (canApplyTo op specs) eqn:Hc; [| reflexivity].
    assert (Hyes : canApplyTo (combined ops) specs = true)
      by (apply Hsome; eauto).
    congruence.
  - intros Hyes. apply Hsome in Hyes as (op0 & Hop0 & Hc0).
    destruct (List.find (fun op => canApplyTo op specs) ops) as [op |] eqn:Hfind.
    + destruct (find_prefix _ _ _ Hfind) as (pre & post & Hsplit & Hpre & Hop).
      exists pre, op, post. simpl. unfold getOp. fold specs. rewrite Hfind.
      auto.
    + pose proof (find_none _ _ Hfind op0 Hop0) as Hc. simpl in Hc. congruence.
Qed.

End Combine.

Lemma inSet_flat_map (face : Face) (cs : list Cap) :
  inSet face (flat_map capFaces cs) = true
  <-> exists c, In c cs /\ inSet face (capFaces c) = true.
Proof.
  unfold inSet. rewrite existsb_exists. split.
  - intros (g & Hg & Heq). apply in_flat_map in Hg as (c & Hc & Hg).
    exists c. split; [exact Hc |]. apply existsb_exists. eauto.
  - intros (c & Hc & Hin). apply existsb_exists in Hin as (g & Hg & Heq).
    exists g. split; [| exact Heq]. apply in_flat_map. eauto.
Qed.

(** X8. [faceSelectionStates] returns one state per face of the geometry,
    in order. A face is "selected" exactly when a cap is given and the face
    is one of its faces; it is "selectable" exactly when it is not selected
    and is a face of one of the forme's caps; it has no state otherwise.
    So without a cap nothing is selected, and with one of the forme's own
    caps every face with a state is a face of some cap of the forme. *)
Theorem faceSelectionStates_spec (forme : AnyForme) (cap : option Cap) :
  let states := faceSelectionStates forme cap in
  let chosen (face : Face) :=
    exists c, cap = Some c /\ inSet face (capFaces c) = true in
  let capped (face : Face) :=
    exists c, In c (getCaps forme) /\ inSet face (capFaces c) = true in
  length states = length (faces (formeGeom forme)) /\
  (forall i face, faces (formeGeom forme) !! i = Some face ->
     (states !! i = Some (Some Selected) <-> chosen face)
     /\ (states !! i = Some (Some Selectable)
         <-> ~ chosen face /\ capped face)
     /\ (states !! i = Some None <-> ~ chosen face /\ ~ capped face)) /\
  (cap = None -> forall s, In s states -> s <> Some Selected) /\
  (forall c, cap = Some c -> In c (allOptionCombos forme) ->
     forall i face state,
       faces (formeGeom forme) !! i = Some face ->
       states !! i = Some (Some state) -> capped face).
Proof.
  intros states chosen capped.
  assert (Hchosen : forall face,
             match cap with
             | Some c => inSet face (capFaces c)
             | None => false
             end = true <-> chosen face).
  { intros face. unfold chosen. destruct cap as [c |].
    - split; [eauto | now intros (c' & [= <-] & Hin)].
    - split; [discriminate | now intros (c' & Hc & _)]. }
  assert (Hstate : forall i face,
             faces (formeGeom forme) !! i = Some face ->
             states !! i
             = Some (if match cap with
                        | Some c => inSet face (capFaces c)
                        | None => false
                        end
                     then Some Selected
                     else if inSet face (flat_map capFaces (getCaps forme))
                          then Some Selectable else None)).
  { intros i face Hi. unfold states, faceSelectionStates.
    rewrite list_lookup_fmap, Hi. reflexivity. }
  split; [apply length_map |]. split; [| split].
  - intros i face Hi. rewrite (Hstate i face Hi).
    pose proof (Hchosen face) as Hc.
    pose proof (inSet_flat_map face (getCaps forme)) as Hf.
    fold (capped face) in Hf.
    destruct (match cap with Some c => inSet face (capFaces c) | None => false end);
      [| destruct (inSet face (flat_map capFaces (getCaps forme)))].
    + assert (chosen face) by now apply Hc.
      repeat split; try discriminate; try tauto; auto.
    + assert (~ chosen face) by (intros Hx; apply Hc in Hx; discriminate).
      assert (capped face) by now apply Hf.
      repeat split; try discriminate; try tauto; auto.
    + assert (~ chosen face) by (intros Hx; apply Hc in Hx; discriminate).
      assert (~ capped face) by (intros Hx; apply Hf in Hx; discriminate).
      repeat split; try discriminate; try tauto; auto.
  - intros -> s Hs. unfold states, faceSelectionStates in Hs.
    apply in_map_iff in Hs as (face & <- & _). simpl.
    destruct (inSet face _); discriminate.
  - intros c -> Hc i face state Hi Hs. rewrite (Hstate i face Hi) in Hs.
    destruct (inSet face (capFaces c)) eqn:Hin.
    + exists c. split; [exact Hc | exact Hin].
    + destruct (inSet face (flat_map capFaces (getCaps forme))) eqn:Hall;
        [| discriminate].
      now apply inSet_flat_map.
Qed.

End CutPasteOpFacts.

(* --------------------------------------------------------------------- *)
(** ** Validity of a face and planarity of points *)
(* --------------------------------------------------------------------- *)

Module FaceLikeFacts.
Import LinAlg Polyhedra FaceLikeChecks.

Lemma filter_all {A} (p : A -> bool) (l : list A) :
  length (List.filter p l) <= length l
  /\ (length (List.filter p l) = length l <-> forallb p l = true).
Proof.
  induction l as [| a l [IHle IHiff]]; simpl; [split; [lia | tauto] |].
  destruct (p a); simpl.
  - split; [lia |]. rewrite <- IHiff. lia.
  - split; [lia |]. split; [lia | discriminate].
Qed.

(** X9. A face-like is valid exactly when all its edges count as unique
    sides, that is when [numUniqueSides] is the number of its edges, which
    it never exceeds. Without edges a face-like is valid with no unique
    side, and asking its side length fails; with edges, a valid face-like
    has a side length above the precision. *)
Theorem isValid_unique_sides (edgeLength : Edge -> float) (f : FaceLike) :
  (isValid edgeLength f = true
   <-> numUniqueSides edgeLength f = length (edges f)) /\
  numUniqueSides edgeLength f <= length (edges f) /\
  (edges f = [] ->
     isValid edgeLength f = true /\ numUniqueSides edgeLength f = 0
     /\ sideLength edgeLength f = Throw TypeError) /\
  (edges f <> [] -> isValid edgeLength f = true ->
     exists l, sideLength edgeLength f = Ok l
               /\ (PRECISION <? l)%float = true).
Proof.
  unfold isValid, numUniqueSides, sideLength.
  destruct (filter_all (isLong edgeLength) (edges f)) as [Hle Hiff].
  split; [symmetry; exact Hiff |]. split; [exact Hle |]. split.
  - intros ->. repeat split.
  - destruct (edges f) as [| e l]; [congruence |]. intros _ Hvalid.
    simpl in Hvalid. apply andb_true_iff in Hvalid as [He _].
    exists (edgeLength e). split; [reflexivity | exact He].
Qed.

Lemma forallb_perm {A} (p : A -> bool) (l l' : list A) :
  Permutation l l' -> forallb p l = forallb p l'.
Proof.
  induction 1; simpl; try congruence.
  now rewrite !andb_assoc, (andb_comm (p y)).
Qed.

(** X10. [isPlanar] throws exactly when it is given fewer than three
    points. Otherwise the first three points fix the plane: the answer is
    true exactly when every point is within the precision of it, it does
    not depend on the order of the points after the third, and a planar list
    stays planar when it is cut after its third point or later. *)
Theorem isPlanar_first_three
        (planeDistance : Vec3D -> Vec3D -> Vec3D -> Vec3D -> float)
        (points : list Vec3D) :
  let planar := isPlanar planeDistance in
  (throws (planar points) <-> length points < 3) /\
  (forall a b c rest, points = a :: b :: c :: rest ->
     (planar points = Ok true
      <-> forall v, In v points ->
            (planeDistance a b c v <? PRECISION)%float = true)
     /\ (forall rest', Permutation rest rest' ->
           planar (a :: b :: c :: rest') = planar points)) /\
  (forall more, 3 <= length points ->
     planar (points ++ more) = Ok true -> planar points = Ok true).
Proof.
  intros planar. subst planar. split; [| split].
  - unfold throws, isPlanar.
    destruct points as [| a [| b [| c rest]]]; simpl;
      (split; [intros [e He]; first [lia | discriminate He]
              | intros Hlt; first [lia | eexists; reflexivity]]).
  - intros a b c rest ->. split.
    + unfold isPlanar. split.
      * intros [= Hall]. now apply forallb_forall.
      * intros Hall. f_equal. now apply forallb_forall.
    + intros rest' Hperm. unfold isPlanar. f_equal. simpl.
      now rewrite (forallb_perm _ rest' rest (Permutation_sym Hperm)).
  - intros more Hlen.
    destruct points as [| a [| b [| c rest]]]; simpl in Hlen; try lia.
    unfold isPlanar. simpl. intros [= Hall]. f_equal.
    rewrite !andb_true_iff in Hall. destruct Hall as (Ha & Hb & Hc & Hall).
    rewrite forallb_app in Hall. apply andb_true_iff in Hall as [Hrest _].
    now rewrite Ha, Hb, Hc, Hrest.
Qed.

End FaceLikeFacts.


(* --------------------------------------------------------------------- *)
(** ** The face queries of the Composite formes *)
(* --------------------------------------------------------------------- *)

Module CompositeFaceFacts.
Import LinAlg Polyhedra Specs CompositeForme CutPasteOps CompositeFaces.
Import OperationPairFacts.

Lemma filterResult_in {A} (p : A -> result bool) (l : list A) :
  forall r, filterResult p l = Ok r ->
    (forall x, In x l -> exists b, p x = Ok b)
    /\ (forall x, In x r <-> In x l /\ p x = Ok true).
Proof.
  induction l as [| a l IH]; simpl; intros r Hr.
  - injection Hr as <-. split; [intros x [] | intros x; simpl; tauto].
  - destruct (p a) as [keep |] eqn:Ha; simpl in Hr; [| discriminate].
    destruct (filterResult p l) as [rest |]; simpl in Hr; [| discriminate].
    injection Hr as <-. destruct (IH rest eq_refl) as [Hdef Hin]. split.
    + intros x [<- | Hx]; [eauto | now apply Hdef].
    + intros x. destruct keep; simpl; rewrite Hin.
      * split.
        -- intros [<- | [Hx Hp]]; auto.
        -- intros [[<- | Hx] Hp]; auto.
      * split.
        -- intros [Hx Hp]; auto.
        -- intros [[<- | Hx] Hp]; [congruence | auto].
Qed.

Section Faces.
Context {Composite : Type} `{CompositeSpecs Composite}.
Variable getNormal : list Vec3D -> Vec3D.
Variable isInverse : Vec3D -> Vec3D -> bool.
Variable sourcePrismIsTriangular : Composite -> bool.
Variable sourcePrismBaseSides : Composite -> nat.

Abbreviation F := (Forme Composite).

Lemma main_minor_values (f : F) (face : Face) (s : bool) :
  isSourceFace f face = Ok s ->
  exists m n,
    isMainFace f face = Ok m /\ isMinorFace f face = Ok n
    /\ m || n = s /\ m && n = false
    /\ (sourceClassicalIsRegular (specs f) = true -> n = false)
    /\ (sourceClassicalIsRegular (specs f) = false -> s = true ->
        m = negb (numSides face =? 3)).
Proof.
  intros Hs. unfold isMinorFace, isMainFace. rewrite Hs. simpl.
  destruct s; simpl.
  - destruct (sourceClassicalIsRegular (specs f)); simpl.
    + exists true, false. repeat split; auto; discriminate.
    + exists (negb (numSides face =? 3)), (negb (negb (numSides face =? 3))).
      destruct (numSides face =? 3); repeat split; auto; discriminate.
  - exists false, false. repeat split; auto; discriminate.
Qed.

Lemma isMainFace_source (f : F) (face : Face) (m : bool) :
  isMainFace f face = Ok m -> exists s, isSourceFace f face = Ok s.
Proof.
  unfold isMainFace. destruct (isSourceFace f face); [eauto | discriminate].
Qed.

(** X11. In the augmented-classical forme a face is a main or a minor
    face exactly when it is a source face, and never both; a regular source
    has no minor face, and in any other source the main faces are the
    source faces that are not triangles. So [mainFaces] and [minorFaces]
    split the source faces of the geometry between them. *)
Theorem main_minor_partition (f : F) :
  (forall face s, isSourceFace f face = Ok s ->
     exists m n,
       isMainFace f face = Ok m /\ isMinorFace f face = Ok n
       /\ m || n = s /\ m && n = false
       /\ (sourceClassicalIsRegular (specs f) = true -> n = false)
       /\ (sourceClassicalIsRegular (specs f) = false -> s = true ->
           m = negb (numSides face =? 3))) /\
  (forall ms ns, mainFaces f = Ok ms -> minorFaces f = Ok ns ->
     forall face, In face (faces (geom f)) ->
       ((In face ms \/ In face ns) <-> isSourceFace f face = Ok true)
       /\ ~ (In face ms /\ In face ns)).
Proof.
  split; [intros face s; apply main_minor_values |].
  intros ms ns Hms Hns face Hface.
  destruct (filterResult_in _ _ _ Hms) as [Hdef Hin].
  destruct (filterResult_in _ _ _ Hns) as [_ Hin'].
  destruct (Hdef face Hface) as [m0 Hm0].
  destruct (isMainFace_source f face m0 Hm0) as [s Hs].
  destruct (main_minor_values f face s Hs) as (m & n & Hm & Hn & Hor & Hand & _).
  rewrite Hin, Hin', Hm, Hn, Hs. split.
  - split.
    + intros [[_ [= ->]] | [_ [= ->]]]; simpl in Hor; subst s;
        [reflexivity | now rewrite orb_true_r].
    + intros [= ->]. destruct m; [left; auto |]. simpl in Hor. subst n. auto.
  - intros [[_ [= ->]] [_ [= ->]]]. discriminate Hand.
Qed.

(** X12. In the augmented-classical forme a cap top that has a vertex is
    no source face, hence neither a main nor a minor face, and it cannot
    be augmented. *)
Theorem capTop_not_augmentable (f : F) (face : Face)
    (Hvariant : variant f = AugmentedClassicalForme)
    (Hvertices : vertices face <> [])
    (Htop : isCapTop f face = Ok true) :
  sourceClassicalIsRegular (specs f) = false /\
  isSourceFace f face = Ok false /\
  isMainFace f face = Ok false /\
  isMinorFace f face = Ok false /\
  canAugment f face = Ok false.
Proof.
  unfold isCapTop in Htop.
  destruct (sourceClassicalIsRegular (specs f)) eqn:Hreg; [discriminate |].
  assert (Hsource : isSourceFace f face = Ok false).
  { unfold isSourceFace.
    destruct (vertices face) as [| v vs]; [congruence |]. simpl in *.
    destruct (capInnerVertIndices f) as [inner |]; simpl in *; [| discriminate].
    destruct (bool_decide (index v ∈ inner)); simpl in *;
      [reflexivity | discriminate]. }
  assert (Hmain : isMainFace f face = Ok false).
  { unfold isMainFace. now rewrite Hsource. }
  split; [reflexivity |]. split; [exact Hsource |]. split; [exact Hmain |].
  split.
  - unfold isMinorFace. now rewrite Hsource.
  - unfold canAugment. rewrite Hvariant, Hmain. reflexivity.
Qed.

(** X13. In the gyrate forme the faces of the geometry that can be
    augmented are exactly the faces among its modifications. In the
    diminished forme the modifications are the faces of the geometry with
    as many sides as the largest face, none when the specs are not
    diminished, and each can be augmented exactly when the specs are not
    augmented. *)
Theorem modifications_augmentable (f : F) (face : Face) :
  (variant f = GyrateSolidForme -> In face (faces (geom f)) ->
     (canAugment f face = Ok true
      <-> In (Some (BaseFace face)) (modifications f))) /\
  (variant f = DiminishedSolidForme ->
     (In (Some (BaseFace face)) (modifications f)
      <-> In face (faces (geom f))
          /\ isDiminished (specs f) = true
          /\ numSides face = numSides (largestFace (geom f)))
     /\ (In (Some (BaseFace face)) (modifications f) ->
         canAugment f face = Ok (negb (isAugmented (specs f))))
     /\ (isDiminished (specs f) = false -> modifications f = [])).
Proof.
  assert (Hdim : In face (diminishedFaces f)
                 <-> In face (faces (geom f))
                     /\ isDiminished (specs f) = true
                     /\ numSides face = numSides (largestFace (geom f))).
  { unfold diminishedFaces, isDiminishedFace.
    rewrite <- !list_elem_of_In, list_elem_of_filter, andb_true_iff, Nat.eqb_eq.
    split; [intros [[? ?] ?] | intros [? [? ?]]]; auto. }
  assert (Hface : forall l : list Face,
             In (Some (BaseFace face)) (map (fun g => Some (BaseFace g)) l)
             <-> In face l).
  { intros l. rewrite in_map_iff. split.
    - now intros (g & [= ->] & Hg).
    - intros Hg. eauto. }
  split.
  - intros Hv Hin. unfold canAugment, modifications. rewrite Hv.
    rewrite in_app_iff, Hface, Hdim. split.
    + intros [= Hd]. right. unfold isDiminishedFace in Hd.
      apply andb_true_iff in Hd as [Hd Hn]. apply Nat.eqb_eq in Hn. auto.
    + intros [Hcap | (_ & Hd & Hn)].
      * apply in_map_iff in Hcap as (c & Hc & _). discriminate Hc.
      * unfold isDiminishedFace. rewrite Hd. simpl. f_equal.
        now apply Nat.eqb_eq.
  - intros Hv. unfold modifications, canAugment. rewrite Hv.
    rewrite Hface, Hdim. split; [reflexivity |]. split.
    + intros (_ & Hd & Hn). unfold isDiminishedFace. rewrite Hd. simpl.
      apply Nat.eqb_eq in Hn. rewrite Hn. simpl.
      destruct (isAugmented (specs f)); reflexivity.
    + intros Hno. unfold diminishedFaces, isDiminishedFace. rewrite Hno. simpl.
      clear Hdim. induction (faces (geom f)) as [| g l IH]; [reflexivity |].
      rewrite filter_cons_False by discriminate. exact IH.
Qed.

Abbreviation opposed a b :=
  (isInverse (normal getNormal (faceLike a)) (normal getNormal (faceLike b))).

Lemma firstInversePair_some (outer all : list Face) (f1 f2 : Face) :
  firstInversePair getNormal isInverse outer all = Some (f1, f2) ->
  In f1 outer /\ In f2 all /\ opposed f1 f2 = true.
Proof.
  induction outer as [| g outer IH]; simpl; [discriminate |].
  unfold firstInverse at 1.
  destruct (List.find _ all) as [g2 |] eqn:Hfind.
  - intros [= <- <-]. apply find_some in Hfind as [Hin Hop]. auto.
  - intros Hrest. destruct (IH Hrest) as (H1 & H2 & H3). auto.
Qed.

Lemma firstInversePair_none (outer all : list Face) :
  firstInversePair getNormal isInverse outer all = None
  <-> forall f1 f2, In f1 outer -> In f2 all -> opposed f1 f2 = false.
Proof.
  induction outer as [| g outer IH]; simpl.
  - split; [intros _ f1 f2 [] | reflexivity].
  - unfold firstInverse at 1.
    destruct (List.find _ all) as [g2 |] eqn:Hfind.
    + split; [discriminate |]. intros Hall.
      apply find_some in Hfind as [Hin Hop].
      rewrite (Hall g g2 (or_introl eq_refl) Hin) in Hop. discriminate.
    + rewrite IH. split.
      * intros Hall f1 f2 [<- | H1] H2; [| now apply Hall].
        exact (find_none _ _ Hfind f2 H2).
      * intros Hall f1 f2 H1 H2. apply Hall; [now right | exact H2].
Qed.

Abbreviation bases := (baseFaces getNormal isInverse sourcePrismIsTriangular
                         sourcePrismBaseSides).
Abbreviation isBase := (isBaseFace getNormal isInverse sourcePrismIsTriangular
                          sourcePrismBaseSides).

(** X14. For a triangular source prism [baseFaces] returns two faces of
    the geometry with opposite normals, and throws exactly when the
    geometry has no such pair. For any other source prism it returns the
    faces with the prism's base side count, so that every such face of the
    geometry is a base face; for a square prism every side face of the
    geometry is a base face as well. *)
Theorem baseFaces_found (f : F) :
  (sourcePrismIsTriangular (specs f) = true ->
     (forall bs, bases f = Ok bs ->
        exists f1 f2, bs = [f1; f2] /\ In f1 (faces (geom f))
                      /\ In f2 (faces (geom f)) /\ opposed f1 f2 = true)
     /\ (throws (bases f)
         <-> forall f1 f2, In f1 (faces (geom f)) -> In f2 (faces (geom f)) ->
               opposed f1 f2 = false)) /\
  (sourcePrismIsTriangular (specs f) = false ->
     (forall face, In face (faces (geom f)) ->
        numSides face = sourcePrismBaseSides (specs f) ->
        isBase f face = Ok true)
     /\ (forall face, isBase f face = Ok true ->
           exists g, In g (faces (geom f)) /\ faceEquals face g = true
                     /\ numSides g = sourcePrismBaseSides (specs f))
     /\ (sourcePrismBaseSides (specs f) = 4 ->
         forall face, In face (faces (geom f)) -> isSideFace face = true ->
           isBase f face = Ok true)).
Proof.
  split.
  - intros Htri. unfold baseFaces. rewrite Htri. simpl.
    destruct (firstInversePair _ _ _ _) as [[f1 f2] |] eqn:Hpair.
    + apply firstInversePair_some in Hpair as (H1 & H2 & H3). split.
      * intros bs [= <-]. exists f1, f2. auto.
      * split; [intros [e He]; discriminate He |].
        intros Hall. rewrite (Hall f1 f2 H1 H2) in H3. discriminate.
    + split; [discriminate |].
      split; [intros _; now apply firstInversePair_none |].
      intros _. eexists. reflexivity.
  - intros Htri.
    assert (Hbase : forall face,
               isBase f face = Ok true
               <-> exists g, In g (faces (geom f)) /\ faceEquals face g = true
                             /\ numSides g = sourcePrismBaseSides (specs f)).
    { intros face. unfold isBaseFace, baseFaces. rewrite Htri. simpl.
      unfold inSet. split.
      - intros [= Hex]. apply existsb_exists in Hex as (g & Hg & Heq).
        apply filter_In in Hg as [Hg Hn]. apply Nat.eqb_eq in Hn. eauto.
      - intros (g & Hg & Heq & Hn). f_equal. apply existsb_exists.
        exists g. split; [| exact Heq]. apply filter_In.
        split; [exact Hg | now apply Nat.eqb_eq]. }
    assert (Hself : forall face, In face (faces (geom f)) ->
               numSides face = sourcePrismBaseSides (specs f) ->
               isBase f face = Ok true).
    { intros face Hin Hn. apply Hbase. exists face.
      split; [exact Hin |]. split; [apply Nat.eqb_refl | exact Hn]. }
    split; [exact Hself |]. split; [intros face; apply Hbase |].
    intros H4 face Hin Hside. apply Hself; [exact Hin |].
    unfold isSideFace in Hside. apply Nat.eqb_eq in Hside. congruence.
Qed.

End Faces.

End CompositeFaceFacts.


(* --------------------------------------------------------------------- *)
(** ** The legacy augmentation: choosing and aligning an augmentee *)
(* --------------------------------------------------------------------- *)

Module AugmentChoiceFacts.
Import Augment AugmentChoice.

Lemma upto_twelve (P : nat -> Prop) :
  P 0 -> P 1 -> P 2 -> P 3 -> P 4 -> P 5 -> P 6 -> P 7 -> P 8 -> P 9 ->
  P 10 -> P 11 -> (forall m, P (12 + m)) -> forall n, P n.
Proof.
  intros H0 H1 H2 H3 H4 H5 H6 H7 H8 H9 H10 H11 Hbig n.
  do 12 (destruct n as [| n]; [assumption |]).
  apply (Hbig n).
Qed.

Lemma possibleNames_large (m : nat) : possibleNames (12 + m) = [].
Proof.
  unfold possibleNames, half. simpl.
  destruct (Nat.even m); reflexivity.
Qed.

Lemma defaultAugmentees_first (n : nat) :
  (possibleNames n = [] <-> defaultAugmentees n = None) /\
  (forall code, defaultAugmentees n = Some code ->
     exists name, augmenteeOf code = Ok (Some name)
                  /\ head (possibleNames n) = Some name).
Proof.
  revert n. apply upto_twelve;
    try (split; [split; [discriminate | discriminate]
                | intros code [= <-]; eexists; split; reflexivity]);
    try (split; [split; reflexivity | discriminate]).
  intros m. rewrite possibleNames_large. simpl.
  split; [split; reflexivity | discriminate].
Qed.




Lemma possibleNames_none (n : nat) :
  possibleNames n = [] <-> ~ In n [3; 4; 5; 6; 8; 10].
Proof.
  revert n. apply upto_twelve;
    try (intros m; rewrite possibleNames_large);
    simpl; split; try discriminate; try tauto; try (intros _; lia);
    try reflexivity; intuition lia.
Qed.

Lemma canAugment_unlisted (get : string -> Polyhedron) (base : Face) :
  ~ In (numSides base) [3; 4; 5; 6; 8; 10] -> canAugment get base = Ok false.
Proof.
  intros Hn. apply possibleNames_none in Hn. unfold canAugment.
  change (getPossibleAugmentees get (numSides base))
    with (map get (possibleNames (numSides base))).
  now rewrite Hn.
Qed.

(** X16. A face has a default augmentee exactly when some augmentee is
    possible for its side count, and the default is then the first
    possible one. The possible augmentees are fetched by the names listed
    for the side count; a face with none of them, that is with a side count
    other than 3, 4, 5, 6, 8 or 10, cannot be augmented. *)
Theorem canAugment_side_counts (get : string -> Polyhedron) (base : Face) :
  let n := numSides base in
  getPossibleAugmentees get n = map get (possibleNames n) /\
  (possibleNames n = [] <-> defaultAugmentees n = None) /\
  (forall code, defaultAugmentees n = Some code ->
     exists name, augmenteeOf code = Ok (Some name)
                  /\ head (getPossibleAugmentees get n) = Some (get name)) /\
  (possibleNames n = [] <-> ~ In n [3; 4; 5; 6; 8; 10]) /\
  (~ In n [3; 4; 5; 6; 8; 10] -> canAugment get base = Ok false).
Proof.
  intros n.
  split; [reflexivity |]. split; [apply defaultAugmentees_first |].
  split; [| split; [apply possibleNames_none |]].
  - intros code Hcode.
    destruct (proj2 (defaultAugmentees_first n) code Hcode) as (name & Ha & Hh).
    exists name. split; [exact Ha |].
    change (getPossibleAugmentees get n) with (map get (possibleNames n)).
    destruct (possibleNames n); [discriminate | injection Hh as ->; reflexivity].
  - apply canAugment_unlisted.
Qed.

Lemma mapResult_at {A B} (f : A -> result B) (l : list A) (bs : list B) :
  mapResult f l = Ok bs ->
  forall i b, bs !! i = Some b <-> exists a, l !! i = Some a /\ f a = Ok b.
Proof.
  revert bs. induction l as [| a l IH]; simpl; intros bs Hmap i b.
  - injection Hmap as <-. rewrite lookup_nil. split; [discriminate |].
    intros (a & Ha & _). rewrite lookup_nil in Ha. discriminate.
  - destruct (f a) as [b0 | e] eqn:Hfa; simpl in Hmap; [| discriminate].
    destruct (mapResult f l) as [bs0 | e]; simpl in Hmap; [| discriminate].
    injection Hmap as <-. destruct i as [| i]; simpl.
    + split.
      * intros [= ->]. exists a. split; [reflexivity | exact Hfa].
      * intros (a' & [= <-] & Hb). rewrite Hfa in Hb. congruence.
    + apply (IH bs0 eq_refl).
Qed.

Lemma mapResult_throws {A B} (f : A -> result B) (l : list A) :
  throws (mapResult f l) <-> exists a, In a l /\ throws (f a).
Proof.
  unfold throws. induction l as [| a l IH]; simpl.
  - split; [intros [e He]; discriminate | intros (a & [] & _)].
  - destruct (f a) as [b | e] eqn:Hfa; simpl.
    + destruct (mapResult f l) as [bs | e]; simpl.
      * split; [intros [e He]; discriminate |].
        intros (a' & [<- | Hin] & e & He).
        -- rewrite Hfa in He. discriminate.
        -- destruct (proj2 IH (ex_intro _ a' (conj Hin (ex_intro _ e He))))
             as [e' He'].
           discriminate He'.
      * split; [| intros _; exists e; reflexivity].
        intros _. destruct (proj1 IH (ex_intro _ e eq_refl)) as (a' & Hin & He).
        exists a'. split; [right; exact Hin | exact He].
    + split; [| intros _; exists e; reflexivity].
      intros _. exists a. split; [left; reflexivity |].
      exists e. exact Hfa.
Qed.

Section Hit.
Context {Point : Type}.
Variable get : string -> Polyhedron.
Variable hitFace : Polyhedron -> Point -> Face.
Variable index : Face -> nat.

Abbreviation applyArgs := (getApplyArgs get hitFace index).

(** X17. [augment.getApplyArgs] fails exactly when [canAugment] fails on
    some face of the polyhedron. A face it offers is the hit face, and the
    face stored at the hit face's index can be augmented. When the hit
    face sits at its own index, it is offered exactly when it can be
    augmented, and never when its side count is not 3, 4, 5, 6, 8 or 10. *)
Theorem getApplyArgs_augmentable (polyhedron : Polyhedron) (hitPnt : Point) :
  let hit := hitFace polyhedron hitPnt in
  (throws (applyArgs polyhedron hitPnt)
   <-> exists face, In face (getFaces polyhedron)
                    /\ throws (canAugment get face)) /\
  (forall face, applyArgs polyhedron hitPnt = Ok (Some face) ->
     face = hit
     /\ exists stored, getFaces polyhedron !! index hit = Some stored
                       /\ canAugment get stored = Ok true) /\
  (getFaces polyhedron !! index hit = Some hit ->
   forall r, applyArgs polyhedron hitPnt = Ok r ->
     (r = Some hit <-> canAugment get hit = Ok true)
     /\ (r = None <-> canAugment get hit = Ok false)
     /\ (~ In (numSides hit) [3; 4; 5; 6; 8; 10] -> r = None)).
Proof.
  intros hit. unfold getApplyArgs, getAugmentGraph. fold hit.
  split; [| split].
  - rewrite <- mapResult_throws.
    destruct (mapResult (canAugment get) (getFaces polyhedron)) as [g | e];
      simpl; [| split; intros _; exists e; reflexivity].
    split; intros [e He]; discriminate.
  - intros face.
    destruct (mapResult (canAugment get) (getFaces polyhedron)) as [g | e] eqn:Hg;
      simpl; [| discriminate].
    unfold getAugmentFace. fold hit.
    destruct (g !! index hit) as [b |] eqn:Hb; simpl; [| discriminate].
    destruct b; [| discriminate]. intros [= <-]. split; [reflexivity |].
    apply (mapResult_at _ _ _ Hg). exact Hb.
  - intros Hstored r.
    destruct (mapResult (canAugment get) (getFaces polyhedron)) as [g | e] eqn:Hg;
      simpl; [| discriminate].
    unfold getAugmentFace. fold hit.
    pose proof (mapResult_at _ _ _ Hg (index hit)) as Hlook.
    destruct (g !! index hit) as [b |] eqn:Hb; simpl.
    + destruct (proj1 (Hlook b) eq_refl) as (a & Ha & Hcan).
      rewrite Hstored in Ha. injection Ha as <-.
      intros [= <-]. rewrite Hcan.
      destruct b; (split; [| split]);
        try (split; [discriminate | discriminate]);
        try (split; reflexivity).
      intros Hn. rewrite (canAugment_unlisted get hit Hn) in Hcan.
      discriminate.
    + exfalso. apply lookup_ge_None in Hb.
      apply lookup_lt_Some in Hstored.
      assert (Hlen : length g = length (getFaces polyhedron)).
      { clear -Hg. revert g Hg.
        induction (getFaces polyhedron) as [| a l IH]; simpl; intros g Hg.
        - injection Hg as <-. reflexivity.
        - destruct (canAugment get a); simpl in Hg; [| discriminate].
          destruct (mapResult (canAugment get) l) as [bs |]; simpl in Hg;
            [| discriminate].
          injection Hg as <-. simpl. f_equal. apply (IH bs eq_refl). }
      lia.
Qed.

End Hit.

Lemma setEquals_spec {A} `{EqDecision A} (a b : list A) :
  setEquals a b = true <-> forall x, x ∈ a <-> x ∈ b.
Proof.
  unfold setEquals, xor. rewrite Nat.eqb_eq, length_zero_iff_nil. split.
  - intros Hnil x.
    assert (Hx : x ∉ remove_dups (list_difference a b ++ list_difference b a))
      by (rewrite Hnil; apply not_elem_of_nil).
    rewrite elem_of_remove_dups, elem_of_app, !list_elem_of_difference in Hx.
    destruct (decide (x ∈ a)), (decide (x ∈ b)); tauto.
  - intros Hsame. apply elem_of_nil_inv. intros x.
    rewrite elem_of_remove_dups, elem_of_app, !list_elem_of_difference.
    specialize (Hsame x). tauto.
Qed.

Section BaseTypes.
Variable adjacentFaces : Face -> list Face.
Variable sameFace : Face -> Face -> bool.

Abbreviation baseTypeOf := (getBaseType adjacentFaces sameFace).

Lemma counts_spec (base : Face) (l : list nat) :
  setEquals (remove_dups (map numSides (adjacentFaces base))) l = true
  <-> forall n, n ∈ map numSides (adjacentFaces base) <-> n ∈ l.
Proof.
  rewrite setEquals_spec. split; intros Hs n; specialize (Hs n);
    rewrite elem_of_remove_dups in *; exact Hs.
Qed.

Ltac clash_at Hi Hj n :=
  let Hl := fresh "Hl" in
  let Hr := fresh "Hr" in
  pose proof (Hi n) as Hl; pose proof (Hj n) as Hr;
  rewrite !elem_of_cons, !elem_of_nil in Hl;
  rewrite !elem_of_cons, !elem_of_nil in Hr;
  solve [intuition lia].

Ltac clash Hi Hj :=
  exfalso; first [clash_at Hi Hj 3 | clash_at Hi Hj 4 | clash_at Hi Hj 5].

(** X18. [getBaseType] depends only on which side counts occur among the
    faces around the base: cupola for exactly 3 and 4, prism for 4 alone,
    pyramid for 3 alone, rotunda for 3 and 5, rhombicosidodecahedron for 4
    and 5, truncated for anything else. It never answers antiprism: a base
    surrounded by triangles only is always taken for a pyramid. *)
Theorem getBaseType_side_counts (base : Face) :
  let counts := map numSides (adjacentFaces base) in
  let exactly (l : list nat) := forall n, n ∈ counts <-> n ∈ l in
  baseTypeOf base <> Antiprism /\
  (baseTypeOf base = Cupola <-> exactly [3; 4]) /\
  (baseTypeOf base = PrismBase <-> exactly [4]) /\
  (baseTypeOf base = Pyramid <-> exactly [3]) /\
  (baseTypeOf base = Rotunda <-> exactly [3; 5]) /\
  (baseTypeOf base = Rhombicosidodecahedron <-> exactly [4; 5]) /\
  (forall base',
     (forall n, n ∈ counts <-> n ∈ map numSides (adjacentFaces base')) ->
     baseTypeOf base' = baseTypeOf base).
Proof.
  intros counts exactly.
  assert (Hpyr : exactly [3] ->
                 (0 <? length (distinct sameFace (adjacentFaces base))) = true).
  { intros H3. pose proof (proj2 (H3 3)) as Hin. unfold counts in Hin.
    destruct (adjacentFaces base) as [| g l].
    - exfalso. apply (not_elem_of_nil 3). apply Hin.
      apply elem_of_cons. left. reflexivity.
    - reflexivity. }
  assert (Hext : forall base',
             (forall n, n ∈ counts <-> n ∈ map numSides (adjacentFaces base')) ->
             forall l,
               setEquals (remove_dups (map numSides (adjacentFaces base'))) l
               = setEquals (remove_dups (map numSides (adjacentFaces base))) l).
  { intros base' Hsame l. apply eq_true_iff_eq.
    rewrite !counts_spec. fold counts.
    split; intros Hl n; specialize (Hl n); specialize (Hsame n); tauto. }
  unfold getBaseType.
  pose proof (counts_spec base [3; 4]) as H34.
  pose proof (counts_spec base [4]) as H4.
  pose proof (counts_spec base [3]) as H3.
  pose proof (counts_spec base [3; 5]) as H35.
  pose proof (counts_spec base [4; 5]) as H45.
  fold counts in H34, H4, H3, H35, H45.
  split; [| split; [| split; [| split; [| split; [| split]]]]]; cycle 6.
  { intros base' Hsame. unfold getBaseType. rewrite !(Hext base' Hsame).
    destruct (setEquals _ [3; 4]); [reflexivity |].
    destruct (setEquals _ [4]); [reflexivity |].
    destruct (setEquals _ [3]) eqn:E3; [| reflexivity].
    pose proof (proj1 H3 eq_refl) as S3. rewrite (Hpyr S3).
    destruct (adjacentFaces base') as [| g l]; [| reflexivity].
    exfalso. apply (not_elem_of_nil 3), Hsame, S3.
    apply elem_of_cons. left. reflexivity. }
  all: destruct (setEquals _ [3; 4]) eqn:E34;
    [ pose proof (proj1 H34 eq_refl) as S34
    | assert (N34 : ~ exactly [3; 4]) by (intros Hx; apply H34 in Hx; discriminate);
      destruct (setEquals _ [4]) eqn:E4;
      [ pose proof (proj1 H4 eq_refl) as S4
      | assert (N4 : ~ exactly [4]) by (intros Hx; apply H4 in Hx; discriminate);
        destruct (setEquals _ [3]) eqn:E3;
        [ pose proof (proj1 H3 eq_refl) as S3; rewrite (Hpyr S3)
        | assert (N3 : ~ exactly [3]) by (intros Hx; apply H3 in Hx; discriminate);
          destruct (setEquals _ [3; 5]) eqn:E35;
          [ pose proof (proj1 H35 eq_refl) as S35
          | assert (N35 : ~ exactly [3; 5])
              by (intros Hx; apply H35 in Hx; discriminate);
            destruct (setEquals _ [4; 5]) eqn:E45;
            [ pose proof (proj1 H45 eq_refl) as S45
            | assert (N45 : ~ exactly [4; 5])
                by (intros Hx; apply H45 in Hx; discriminate) ] ] ] ] ].
  all: try discriminate.
  all: split; [try discriminate; intros _; assumption
              | intros Hx; first [reflexivity | contradiction | idtac]].
  all: unfold exactly in *;
    match goal with
    | Ha : forall n : nat, _ <-> _ ∈ ?l, Hb : forall n : nat, _ <-> _ ∈ ?l' |- _ =>
        clash Ha Hb
    end.
Qed.

End BaseTypes.

Section Alignment.
Variable adjacentFaces : Face -> list Face.
Variable directedAdjacentFaces : Face -> list Face.
Variable sameFace : Face -> Face -> bool.
Variable indexIn : Face -> list Face -> Z.
Variable getCyclic : list Face -> Z -> option Face.
Variable peakTypes : Polyhedron -> list string.

Abbreviation aligned :=
  (isAligned adjacentFaces directedAdjacentFaces sameFace indexIn getCyclic
             peakTypes).

(** X19. Where the alignment does not depend on [gyrate] (a pyramid, prism
    or antiprism augmentee, a pyramid base, a prism base on a solid without
    peaks), [isAligned] is true whatever [gyrate]; on a truncated base
    [gyrate] is not read either. Everywhere else [gyrate] has to be given
    (the call throws without it), and "ortho" and "gyro" give opposite
    answers, failing together if at all. *)
Theorem isAligned_gyrate (polyhedron : Polyhedron) (base underside : Face)
        (augmentType : option string) :
  let baseType := getBaseType adjacentFaces sameFace base in
  let free :=
    augmentType ∈ [Some "pyramid"; Some "prism"; Some "antiprism"]%string
    \/ baseType = Pyramid \/ baseType = Antiprism
    \/ (baseType = PrismBase /\ peakTypes polyhedron = []) in
  let answer g := aligned polyhedron base underside g augmentType in
  (free -> forall g, answer g = Ok true) /\
  (~ free -> baseType = Truncated -> forall g g', answer g = answer g') /\
  (~ free -> baseType <> Truncated ->
     answer None
     = Throw (External ("Must define 'gyrate' for augmenting "
                        ++ baseTypeName baseType ++ " ")%string)
     /\ (forall b, answer (Some "ortho"%string) = Ok b
                   <-> answer (Some "gyro"%string) = Ok (negb b))
     /\ (forall e, answer (Some "ortho"%string) = Throw e
                   <-> answer (Some "gyro"%string) = Throw e)).
Proof.
  intros baseType free answer. subst answer. unfold isAligned.
  fold baseType.
  assert (Hfree : free <->
            (bool_decide (augmentType
                          ∈ [Some "pyramid"; Some "prism"; Some "antiprism"]%string)
             || (bool_decide (baseType = Pyramid)
                 || bool_decide (baseType = Antiprism))
             || (bool_decide (baseType = PrismBase)
                 && (length (peakTypes polyhedron) =? 0))) = true).
  { unfold free.
    rewrite !orb_true_iff, andb_true_iff, !bool_decide_eq_true,
      Nat.eqb_eq, length_zero_iff_nil. tauto. }
  split; [| split].
  - intros Hf g. apply Hfree in Hf.
    destruct (bool_decide (augmentType ∈ _)); [reflexivity |].
    destruct (bool_decide (baseType = Pyramid) || bool_decide (baseType = Antiprism));
      [reflexivity |].
    simpl in Hf. now rewrite Hf.
  - intros Hnf Htr g g'.
    assert (Hb : (bool_decide (augmentType
                          ∈ [Some "pyramid"; Some "prism"; Some "antiprism"]%string)
             || (bool_decide (baseType = Pyramid)
                 || bool_decide (baseType = Antiprism))
             || (bool_decide (baseType = PrismBase)
                 && (length (peakTypes polyhedron) =? 0))) = false).
    { apply not_true_is_false. intros Hx. now apply Hnf, Hfree. }
    apply orb_false_iff in Hb as [Hb Hb3]. apply orb_false_iff in Hb as [Hb1 Hb2].
    rewrite Hb1, Hb2, Hb3.
    rewrite (bool_decide_eq_true_2 (baseType = Truncated) Htr). simpl.
    rewrite (bool_decide_eq_false_2 (baseType = PrismBase)) by congruence.
    rewrite (bool_decide_eq_false_2 (baseType = Rhombicosidodecahedron))
      by congruence.
    reflexivity.
  - intros Hnf Hnt.
    assert (Hb : (bool_decide (augmentType
                          ∈ [Some "pyramid"; Some "prism"; Some "antiprism"]%string)
             || (bool_decide (baseType = Pyramid)
                 || bool_decide (baseType = Antiprism))
             || (bool_decide (baseType = PrismBase)
                 && (length (peakTypes polyhedron) =? 0))) = false).
    { apply not_true_is_false. intros Hx. now apply Hnf, Hfree. }
    apply orb_false_iff in Hb as [Hb Hb3]. apply orb_false_iff in Hb as [Hb1 Hb2].
    rewrite Hb1, Hb2, Hb3.
    rewrite (bool_decide_eq_false_2 (baseType = Truncated) Hnt). simpl.
    split; [reflexivity |].
    destruct (if bool_decide (baseType = PrismBase)
              then getOppositePrismFace directedAdjacentFaces indexIn getCyclic base
              else Ok (head (directedAdjacentFaces base))) as [adj | err];
      simpl; [| split; [split; discriminate | tauto]].
    destruct (sidesOf adj) as [a | err]; simpl;
      [| destruct (bool_decide (baseType = Rhombicosidodecahedron));
         simpl; split; [split; discriminate | tauto
                       | split; discriminate | tauto]].
    destruct (sidesOf (getCyclic (directedAdjacentFaces underside) (-1)))
      as [b' | err]; simpl;
      [| destruct (bool_decide (baseType = Rhombicosidodecahedron));
         simpl; split; [split; discriminate | tauto
                       | split; discriminate | tauto]].
    change (isOrthoString (Some "ortho"%string)) with true.
    change (isOrthoString (Some "gyro"%string)) with false.
    destruct (bool_decide (baseType = Rhombicosidodecahedron)); simpl.
    + split; [| split; discriminate].
      intros b. destruct (Bool.eqb (negb (a =? 4)) (negb (b' =? 4))), b;
        simpl; split; congruence.
    + destruct (head (peakTypes polyhedron)) as [peak |]; simpl;
        [| split; [split; discriminate | tauto]].
      destruct (isCupolaRotunda peak augmentType); simpl;
        (split; [| split; discriminate]);
        intros b; destruct (Bool.eqb (negb (a =? 3)) (negb (b' =? 3))), b;
        simpl; split; congruence.
Qed.

End Alignment.

End AugmentChoiceFacts.

(* ===================================================================== *)
(** ** Round trips and cap tops on the concrete catalogs and solids *)
(* ===================================================================== *)

Module CatalogFacts.
Import OperationPairs PrismOps Catalog BicupolaCatalog.

(** [elongate] on the square bipyramid and [shorten] back. *)
Lemma prismGraph_round_trip_witness :
  let entry := {| left := squareBipyramid; right := elongatedSquareBipyramid;
                  options := None |} in
  In entry (graph squareElongatePair) /\
  getOpposite equals capstoneName squareElongatePair SLeft squareBipyramid None
  = Ok elongatedSquareBipyramid /\
  getOpposite equals capstoneName squareElongatePair SRight
              elongatedSquareBipyramid None
  = Ok squareBipyramid.
Proof.
  intros entry.
  assert (Hin : In entry (prismGraph table predicates
                            (fun s => negb (isDigonal predicates s))
                            Prism None))
    by (vm_compute; auto 10).
  split; [exact Hin |].
  exact (proj2 (proj2 (PrismGraphFacts.prismGraph_round_trip
                         table predicates capstoneName getCapstonePose
                         doPrismTransform _ Prism None entry Hin))).
Defined.

(** [gyroelongate] with a left twist on the square orthobicupola gives the
    right-twisted gyroelongated bicupola; [shorten] with the right twist
    leads back to an orthobicupola. *)
Lemma bicupolaGraph_round_trip_witness :
  let twisted := bicupola Ortho (Some Antiprism) (Some TwistRight) in
  let entry := {| left := squareOrthobicupola; right := twisted;
                  options := Some {| optsLeft := twistOpts TwistLeft;
                                     optsRight := twistOpts TwistRight |} |} in
  In entry (graph squareGyroelongBicupola) /\
  hasOptions equals squareGyroelongBicupola SLeft squareOrthobicupola = true /\
  getOpposite equals capstoneName squareGyroelongBicupola SLeft
              squareOrthobicupola (Some (twistOpts TwistLeft))
  = Ok twisted /\
  exists back,
    getOpposite equals capstoneName squareGyroelongBicupola SRight twisted
                (Some (twistOpts TwistRight)) = Ok back
    /\ equivalent back squareOrthobicupola = true
    /\ (twist back = None -> back = squareOrthobicupola).
Proof.
  intros twisted entry.
  assert (Hin : In entry (bicupolaGraph bicupolaTable predicates None))
    by (left; reflexivity).
  split; [exact Hin |].
  exact (proj2 (PrismGraphFacts.bicupolaGraph_round_trip
                  bicupolaTable predicates capstoneName getCapstonePose
                  doPrismTransform None entry Hin)).
Defined.

End CatalogFacts.

Module MoreSolidFacts.
Import LinAlg Polyhedra Specs CompositeForme CompositeFaces Solids MoreSolids.

(** The mesh of J65 is closed and its cap stays within the mesh. *)
Lemma j65_well_formed : closedMesh j65 = true /\ capsBounded j65 = true.
Proof. split; vm_compute; reflexivity. Qed.

(** The top triangle of the cupola of J65 is no face of the truncated
    tetrahedron and cannot be augmented. *)
Lemma capTop_not_augmentable_witness :
  isCapTop j65Forme j65Top = Ok true /\
  isSourceFace j65Forme j65Top = Ok false /\
  isMainFace j65Forme j65Top = Ok false /\
  isMinorFace j65Forme j65Top = Ok false /\
  canAugment j65Forme j65Top = Ok false.
Proof.
  assert (Htop : isCapTop j65Forme j65Top = Ok true)
    by (vm_compute; reflexivity).
  split; [exact Htop |].
  refine (proj2 (CompositeFaceFacts.capTop_not_augmentable
                   j65Forme j65Top _ _ Htop)).
  - reflexivity.
  - vm_compute. discriminate.
Defined.

End MoreSolidFacts.
